(** * builtwith-api: a shallow embedding of [src/index.js]

    The client wraps the BuiltWith HTTP API.  Everything it does is
    string construction (the request URL) followed by a branch on the
    configured response format.  The development below follows the file
    top to bottom:

    - [JS]      the JavaScript values the client handles and the built-ins
                it calls on them ([`${v}`], [===], [Object.entries],
                [Array.prototype.includes]);
    - [Lodash]  the two lodash functions the file imports, [_.get] and
                [_.isEmpty];
    - [Effects] console output, the network and exceptions, as a small
                state-and-error monad;
    - [Client]  [paramsObjToQueryString], [BuiltWith],
                [constructBuiltWithURL] and the seven request methods;
    - [Json]    a reader for JSON texts, standing for [JSON.parse] wherever a
                statement is evaluated on a concrete response body. *)

From Stdlib Require Import String Ascii List ZArith Bool Lia DecimalString.
Import ListNotations.
Open Scope string_scope.

(* ================================================================== *)
(** * JavaScript values and built-ins *)
(* ================================================================== *)

#[local] Set Warnings "-register-all".

Module JS.

(** The values that reach the client: the API key, the arguments of the
    request methods and the option objects.  A number is an integer; the
    statements that print one ask for a safe integer ([printable] below),
    which JavaScript prints in plain decimal notation.  An object is the
    list of its own enumerable properties in
    the order [Object.entries] lists them; for property names that are
    not array indices (every name in this client) that is the order in
    which they were inserted.  An object has each key once. *)
Inductive value : Type :=
| VUndefined
| VNull
| VBool (b : bool)
| VNum (n : Z)
| VStr (s : string)
| VArr (items : list value)
| VObj (props : list (string * value)).

Definition object := list (string * value).

(** [value === undefined] *)
Definition is_undefined (v : value) : bool :=
  match v with VUndefined => true | _ => false end.

(** [a === b] where [b] is a primitive.  Arrays and objects are equal
    only to themselves by reference, hence never to a literal. *)
Definition strict_eq (a b : value) : bool :=
  match a, b with
  | VUndefined, VUndefined => true
  | VNull, VNull => true
  | VBool x, VBool y => Bool.eqb x y
  | VNum x, VNum y => Z.eqb x y
  | VStr x, VStr y => String.eqb x y
  | _, _ => false
  end.

(** The string conversion a template literal applies to [${v}]. *)
Fixpoint toString (v : value) : string :=
  match v with
  | VUndefined => "undefined"
  | VNull => "null"
  | VBool true => "true"
  | VBool false => "false"
  | VNum n => NilZero.string_of_int (Z.to_int n)
  | VStr s => s
  | VArr items =>
      String.concat ","
        (map (fun e => match e with
                       | VUndefined | VNull => EmptyString
                       | _ => toString e
                       end) items)
  | VObj _ => "[object Object]"
  end.

(** [Number.isSafeInteger(n)]: below 2^53 in magnitude.  Every such
    integer is a JavaScript number and its string is its decimal
    notation; from 2^53 up digits are rounded away, and from 10^21 up the
    string is in exponent notation. *)
Definition isSafeInteger (n : Z) : bool := Z.ltb (Z.abs n) (2 ^ 53)%Z.

(** The values on which [toString] above is the string JavaScript
    builds: numbers are safe integers, inside arrays too, and an object
    has no own [toString] property (with one, the conversion calls it or
    fails with a TypeError). *)
Fixpoint printable (v : value) : bool :=
  match v with
  | VNum n => isSafeInteger n
  | VArr items => forallb printable items
  | VObj props =>
      negb (existsb (fun kv => String.eqb (fst kv) "toString") props)
  | _ => true
  end.

(** [Object.entries(o)], [Object.values(o)] *)
Definition Object_entries (o : object) : list (string * value) := o.
Definition Object_values (o : object) : list value := map snd o.

(** [arr.includes(x)] for an array of primitives (SameValueZero agrees
    with [===] on everything but NaN, which is not a [value]). *)
Definition includes (arr : list value) (x : value) : bool :=
  existsb (fun y => strict_eq x y) arr.

(** [arr.join(sep)] on an array of strings. *)
Definition join (sep : string) (arr : list string) : string :=
  String.concat sep arr.

End JS.
Import JS.

(* ================================================================== *)
(** * lodash *)
(* ================================================================== *)

Module Lodash.

(** [o[key]] on an own property. *)
Definition own (o : object) (key : string) : value :=
  match find (fun kv => String.eqb (fst kv) key) o with
  | Some kv => snd kv
  | None => VUndefined
  end.

(** [_.get(obj, path, defaultValue)] for a one-segment [path] that no
    prototype defines (the option names of this client): the own
    property of an object, [defaultValue] when [obj] is not an object,
    the property is missing or its value is [undefined]. *)
Definition get (obj : value) (path : string) (defaultValue : value) : value :=
  let result :=
    match obj with
    | VObj props => own props path
    | _ => VUndefined
    end in
  if is_undefined result then defaultValue else result.

(** [_.isEmpty(o)] on an object: it has no own enumerable key. *)
Definition isEmpty (o : object) : bool :=
  match o with [] => true | _ :: _ => false end.

End Lodash.

(* ================================================================== *)
(** * Effects: console, network, exceptions *)
(* ================================================================== *)

Module Effects.

(** What a run leaves behind: the lines written with [console.warn] and
    the URLs handed to [fetch], oldest first. *)
Record world : Type := World {
  console : list string;
  requests : list string
}.

Definition quiet : world := World [] [].

(** What is thrown (synchronously) or what a promise rejects with. *)
Inductive error : Type :=
| Error (message : string)   (* [new Error(message)] *)
| TransportFailure           (* [fetch] rejected: no response *)
| InvalidJSON.               (* [res.json()] or [JSON.parse] failed *)

Inductive completion (A : Type) : Type :=
| Return (a : A)
| Throw (e : error).
Arguments Return {A} a.
Arguments Throw {A} e.

Definition M (A : Type) : Type := world -> completion A * world.

Definition ret {A} (a : A) : M A := fun w => (Return a, w).

Definition bind {A B} (m : M A) (k : A -> M B) : M B :=
  fun w =>
    match m w with
    | (Return a, w') => k a w'
    | (Throw e, w') => (Throw e, w')
    end.

Definition throw {A} (e : error) : M A := fun w => (Throw e, w).

(** [try { m } catch (e) { h }] *)
Definition try_catch {A} (m : M A) (h : error -> M A) : M A :=
  fun w =>
    match m w with
    | (Return a, w') => (Return a, w')
    | (Throw e, w') => h e w'
    end.

Definition console_warn (line : string) : M unit :=
  fun w => (Return tt, World (console w ++ [line]) (requests w)).

Definition record_request (url : string) : M unit :=
  fun w => (Return tt, World (console w) (requests w ++ [url])).

End Effects.
Import Effects.

Declare Scope js_scope.
Delimit Scope js_scope with js.
Notation "x <- m ;; k" := (bind m (fun x => k))
  (at level 61, m at next level, right associativity) : js_scope.
Notation "m ;; k" := (bind m (fun _ => k))
  (at level 61, right associativity) : js_scope.

Open Scope js_scope.

(* ================================================================== *)
(** * The client *)
(* ================================================================== *)

Definition VALID_RESPONSE_TYPES : object :=
  [ ("XML", VStr "xml"); ("JSON", VStr "json"); ("TXT", VStr "txt") ].

Definition XML : value := Lodash.own VALID_RESPONSE_TYPES "XML".
Definition JSON : value := Lodash.own VALID_RESPONSE_TYPES "JSON".
Definition TXT : value := Lodash.own VALID_RESPONSE_TYPES "TXT".

(** The array [paramsObjToQueryString] holds just before [.join('&')]:
    the entries whose value is not [undefined], each as [key=value]. *)
Definition queryPairs (params : object) : list string :=
  map (fun kv => fst kv ++ "=" ++ toString (snd kv))
    (filter (fun kv => if is_undefined (snd kv) then false else true)
       (Object_entries params)).

Definition paramsObjToQueryString (params : object) : string :=
  join "&" (queryPairs params).

(** What the closure returned by [BuiltWith] captures. *)
Record client : Type := Client {
  apiKey : value;
  responseFormat : value
}.

Definition TXT_WARNING : string :=
  "TXT response format is only supported for the BuiltWith Lists API. See: https://api.builtwith.com/lists-api".

Definition FALLBACK_WARNING : string :=
  "BuiltWith sent an invalid JSON payload. Falling back to text parsing.".

(** [BuiltWith(apiKey, moduleParams = {})], up to the [return] of the
    method table.  [Throw] is a synchronous exception. *)
Definition BuiltWith (apiKey moduleParams : value) : M client :=
  let moduleParams :=
    if is_undefined moduleParams then VObj [] else moduleParams in
  let responseFormat := Lodash.get moduleParams "responseFormat" VUndefined in
  if negb (includes (Object_values VALID_RESPONSE_TYPES) responseFormat)
  then throw (Error ("Invalid 'responseFormat'. Valid format are 'xml', 'txt', and 'json'. You input "
                       ++ toString responseFormat))
  else
    (if strict_eq responseFormat TXT then console_warn TXT_WARNING else ret tt) ;;
    ret (Client apiKey responseFormat).

(** [constructBuiltWithURL(apiName, requestParams = {}, subdomain = 'api')];
    [None] is an argument left out. *)
Definition constructBuiltWithURL (c : client) (apiName : string)
    (requestParams : option object) (subdomain : option string) : string :=
  let requestParams := match requestParams with Some o => o | None => [] end in
  let subdomain := match subdomain with Some s => s | None => "api" end in
  let bwURL :=
    "https://" ++ subdomain ++ ".builtwith.com/" ++ apiName ++ "/api."
      ++ toString (responseFormat c) ++ "?KEY=" ++ toString (apiKey c) in
  if negb (Lodash.isEmpty requestParams)
  then bwURL ++ "&" ++ paramsObjToQueryString requestParams
  else bwURL.

(** The request methods are asynchronous: here [Return] is the value the
    promise resolves to and [Throw] what it rejects with. *)
Section Methods.

(** The two things the file takes from outside: the remote service
    behind [fetch] (the body it answers with at a URL, or no answer) and
    [JSON.parse]. *)
Variable J : Type.
Variable JSON_parse : string -> option J.
Variable transport : string -> option string.

Record response : Type := Response { body : string }.

(** What a method resolves to: the body as a string, or the parsed body. *)
Inductive payload : Type :=
| Text (s : string)
| Parsed (j : J).

Definition fetch (url : string) : M response :=
  record_request url ;;
  match transport url with
  | Some b => ret (Response b)
  | None => throw TransportFailure
  end.

(** [res.text()] *)
Definition res_text (res : response) : M string := ret (body res).

(** A method that returns the promise of [res.text()] resolves to it. *)
Definition as_text (m : M string) : M payload := s <- m ;; ret (Text s).

Definition JSON_parse_text (s : string) : M payload :=
  match JSON_parse s with
  | Some j => ret (Parsed j)
  | None => throw InvalidJSON
  end.

(** [res.json()] *)
Definition res_json (res : response) : M payload := JSON_parse_text (body res).

(** The [.then] handler shared by the single-object lookups. *)
Definition text_or_json (c : client) (res : response) : M payload :=
  if strict_eq (responseFormat c) XML
  then as_text (res_text res)
  else res_json res.

(** The [else] branch shared by [lists] and [trends]. *)
Definition parse_or_fall_back (res : response) : M payload :=
  parsed <- res_text res ;;
  try_catch (JSON_parse_text parsed)
    (fun _ => console_warn FALLBACK_WARNING ;; ret (Text parsed)).

Definition free_url (c : client) (url : value) : string :=
  constructBuiltWithURL c "free1" (Some [("LOOKUP", url)]) None.

Definition free (c : client) (url : value) : M payload :=
  res <- fetch (free_url c url) ;;
  text_or_json c res.

(** The object literal [domain] passes to the URL builder. *)
Definition domain_params (url params : value) : object :=
  let hideAll := Lodash.get params "hideAll" (VBool false) in
  let noMetaData := Lodash.get params "noMetaData" (VBool false) in
  let noAttributeData := Lodash.get params "noAttributeData" (VBool false) in
  let hideDescriptionAndLinks :=
    Lodash.get params "hideDescriptionAndLinks" (VBool false) in
  let onlyLiveTechnologies :=
    Lodash.get params "onlyLiveTechnologies" (VBool false) in
  [ ("LOOKUP", url);
    ("HIDETEXT", hideAll);
    ("HIDEDL", hideDescriptionAndLinks);
    ("LIVEONLY", onlyLiveTechnologies);
    ("NOMETA", noMetaData);
    ("NOATTR", noAttributeData) ].

Definition domain_url (c : client) (url params : value) : string :=
  constructBuiltWithURL c "v14" (Some (domain_params url params)) None.

Definition domain (c : client) (url params : value) : M payload :=
  res <- fetch (domain_url c url params) ;;
  text_or_json c res.

Definition lists_url (c : client) (technologies params : value) : string :=
  let includeMetaData := Lodash.get params "includeMetaData" (VBool false) in
  let offset := Lodash.get params "offset" VUndefined in
  let since := Lodash.get params "since" VUndefined in
  constructBuiltWithURL c "lists5"
    (Some [ ("TECH", technologies);
            ("META", includeMetaData);
            ("OFFSET", offset);
            ("SINCE", since) ])
    None.

Definition lists (c : client) (technologies params : value) : M payload :=
  res <- fetch (lists_url c technologies params) ;;
  if strict_eq (responseFormat c) TXT || strict_eq (responseFormat c) XML
  then as_text (res_text res)
  else parse_or_fall_back res.

Definition relationships_url (c : client) (url : value) : string :=
  constructBuiltWithURL c "rv1" (Some [("LOOKUP", url)]) None.

Definition relationships (c : client) (url : value) : M payload :=
  res <- fetch (relationships_url c url) ;;
  text_or_json c res.

Definition keywords_url (c : client) (url : value) : string :=
  constructBuiltWithURL c "kw2" (Some [("LOOKUP", url)]) None.

Definition keywords (c : client) (url : value) : M payload :=
  res <- fetch (keywords_url c url) ;;
  text_or_json c res.

Definition trends_url (c : client) (technology params : value) : string :=
  let date := Lodash.get params "date" VUndefined in
  constructBuiltWithURL c "trends/v6"
    (Some [ ("TECH", technology); ("DATE", date) ])
    None.

Definition trends (c : client) (technology params : value) : M payload :=
  res <- fetch (trends_url c technology params) ;;
  if strict_eq (responseFormat c) XML
  then as_text (res_text res)
  else parse_or_fall_back res.

Definition companyToUrl_url (c : client) (companyName params : value) : string :=
  let tld := Lodash.get params "tld" VUndefined in
  let amount := Lodash.get params "noMetaData" VUndefined in
  constructBuiltWithURL c "ctu1"
    (Some [ ("COMPANY", companyName); ("TLD", tld); ("AMOUNT", amount) ])
    (Some "ctu").

Definition companyToUrl (c : client) (companyName params : value) : M payload :=
  res <- fetch (companyToUrl_url c companyName params) ;;
  text_or_json c res.

End Methods.

Arguments Text {J} s.
Arguments Parsed {J} j.

(* ================================================================== *)
(** * Reading JSON texts *)
(* ================================================================== *)

(** [JSON.parse] is a built-in.  The reader below follows the JSON grammar
    (ECMA-404) and returns the syntax tree of a text, with numbers and
    strings kept as they are spelled; [JSON.parse] succeeds on exactly the
    texts that have a tree and builds its value from it. *)
Module Json.

Local Open Scope list_scope.

Inductive json : Type :=
| JNull
| JBool (b : bool)
| JNumber (lexeme : string)
| JString (lexeme : string)
| JArray (items : list json)
| JObject (members : list (string * json)).

Definition code (c : ascii) : nat := nat_of_ascii c.

Definition is_ws (c : ascii) : bool :=
  let n := code c in
  Nat.eqb n 32 || Nat.eqb n 9 || Nat.eqb n 10 || Nat.eqb n 13.

Definition is_digit (c : ascii) : bool :=
  let n := code c in Nat.leb 48 n && Nat.leb n 57.

Definition is_hex (c : ascii) : bool :=
  let n := code c in
  is_digit c || (Nat.leb 65 n && Nat.leb n 70) || (Nat.leb 97 n && Nat.leb n 102).

Fixpoint skip_ws (s : list ascii) : list ascii :=
  match s with
  | c :: rest => if is_ws c then skip_ws rest else s
  | [] => []
  end.

(** Strip [word] from the front of [s]. *)
Fixpoint expect (word s : list ascii) : option (list ascii) :=
  match word, s with
  | [], _ => Some s
  | w :: word', c :: s' => if Ascii.eqb w c then expect word' s' else None
  | _ :: _, [] => None
  end.

(** The longest run of digits at the front of [s], and what follows. *)
Fixpoint digits (s : list ascii) : list ascii * list ascii :=
  match s with
  | c :: rest =>
      if is_digit c
      then let (ds, rest') := digits rest in (c :: ds, rest')
      else ([], s)
  | [] => ([], [])
  end.

Definition starts_with (n : nat) (s : list ascii) : bool :=
  match s with c :: _ => Nat.eqb (code c) n | [] => false end.

(** number = [-] int [frac] [exp] *)
Definition read_number (s : list ascii) : option (list ascii * list ascii) :=
  let (sign, s1) :=
    if starts_with 45 s then (firstn 1 s, skipn 1 s) else ([], s) in
  let (int, s2) := digits s1 in
  match int with
  | [] => None
  | d :: more =>
      if Nat.eqb (code d) 48 && negb (Nat.eqb (length more) 0) then None
      else
        let frac :=
          if starts_with 46 s2 then
            match digits (skipn 1 s2) with
            | ([], _) => None
            | (fs, s3) => Some (firstn 1 s2 ++ fs, s3)
            end
          else Some ([], s2) in
        match frac with
        | None => None
        | Some (fr, s3) =>
            if starts_with 101 s3 || starts_with 69 s3 then
              let s4 := skipn 1 s3 in
              let (esign, s5) :=
                if starts_with 43 s4 || starts_with 45 s4
                then (firstn 1 s4, skipn 1 s4) else ([], s4) in
              match digits s5 with
              | ([], _) => None
              | (es, s6) =>
                  Some (sign ++ int ++ fr ++ firstn 1 s3 ++ esign ++ es, s6)
              end
            else Some (sign ++ int ++ fr, s3)
        end
  end.

(** The characters of a string up to its closing quote, escapes checked
    and left as written. *)
Fixpoint read_chars (s : list ascii) : option (list ascii * list ascii) :=
  match s with
  | [] => None
  | c :: rest =>
      let n := code c in
      if Nat.eqb n 34 then Some ([], rest)
      else if Nat.ltb n 32 then None
      else if Nat.eqb n 92 then
        match rest with
        | e :: rest' =>
            let m := code e in
            if Nat.eqb m 117 then
              match rest' with
              | h1 :: h2 :: h3 :: h4 :: rest'' =>
                  if is_hex h1 && is_hex h2 && is_hex h3 && is_hex h4 then
                    match read_chars rest'' with
                    | Some (cs, after) =>
                        Some (c :: e :: h1 :: h2 :: h3 :: h4 :: cs, after)
                    | None => None
                    end
                  else None
              | _ => None
              end
            else if existsb (Nat.eqb m) [34; 92; 47; 98; 102; 110; 114; 116] then
              match read_chars rest' with
              | Some (cs, after) => Some (c :: e :: cs, after)
              | None => None
              end
            else None
        | [] => None
        end
      else
        match read_chars rest with
        | Some (cs, after) => Some (c :: cs, after)
        | None => None
        end
  end.

Definition keyword (word : string) (j : json) (s : list ascii)
  : option (json * list ascii) :=
  match expect (list_ascii_of_string word) s with
  | Some rest => Some (j, rest)
  | None => None
  end.

(** A value that holds no other value: a keyword, a string or a number.
    [s] starts at its first character. *)
Definition read_scalar (s : list ascii) : option (json * list ascii) :=
  match s with
  | [] => None
  | c :: rest =>
      let n := code c in
      if Nat.eqb n 110 then keyword "null" JNull s
      else if Nat.eqb n 116 then keyword "true" (JBool true) s
      else if Nat.eqb n 102 then keyword "false" (JBool false) s
      else if Nat.eqb n 34 then
        match read_chars rest with
        | Some (cs, after) => Some (JString (string_of_list_ascii cs), after)
        | None => None
        end
      else
        match read_number s with
        | Some (lexeme, after) =>
            Some (JNumber (string_of_list_ascii lexeme), after)
        | None => None
        end
  end.

(** A value; the rest of an array from where an element is due; the rest
    of an object from where a member is due.  Each call on the way down
    spends one unit of [fuel]. *)
Fixpoint read_value (fuel : nat) (s : list ascii) : option (json * list ascii) :=
  match fuel with
  | O => None
  | S fuel' =>
      match skip_ws s with
      | [] => None
      | c :: rest =>
          if Nat.eqb (code c) 91 then
            if starts_with 93 (skip_ws rest)
            then Some (JArray [], skipn 1 (skip_ws rest))
            else
              match read_elements fuel' rest with
              | Some (items, after) => Some (JArray items, after)
              | None => None
              end
          else if Nat.eqb (code c) 123 then
            if starts_with 125 (skip_ws rest)
            then Some (JObject [], skipn 1 (skip_ws rest))
            else
              match read_members fuel' rest with
              | Some (members, after) => Some (JObject members, after)
              | None => None
              end
          else read_scalar (c :: rest)
      end
  end

with read_elements (fuel : nat) (s : list ascii)
  : option (list json * list ascii) :=
  match fuel with
  | O => None
  | S fuel' =>
      match read_value fuel' s with
      | None => None
      | Some (v, after) =>
          match skip_ws after with
          | c :: rest =>
              if Nat.eqb (code c) 44 then
                match read_elements fuel' rest with
                | Some (vs, after') => Some (v :: vs, after')
                | None => None
                end
              else if Nat.eqb (code c) 93 then Some ([v], rest)
              else None
          | [] => None
          end
      end
  end

with read_members (fuel : nat) (s : list ascii)
  : option (list (string * json) * list ascii) :=
  match fuel with
  | O => None
  | S fuel' =>
      match skip_ws s with
      | q :: rest =>
          if Nat.eqb (code q) 34 then
            match read_chars rest with
            | None => None
            | Some (k, after) =>
                match skip_ws after with
                | colon :: rest2 =>
                    if Nat.eqb (code colon) 58 then
                      match read_value fuel' rest2 with
                      | None => None
                      | Some (v, after2) =>
                          let member := (string_of_list_ascii k, v) in
                          match skip_ws after2 with
                          | c :: rest3 =>
                              if Nat.eqb (code c) 44 then
                                match read_members fuel' rest3 with
                                | Some (ms, after') => Some (member :: ms, after')
                                | None => None
                                end
                              else if Nat.eqb (code c) 125
                              then Some ([member], rest3)
                              else None
                          | [] => None
                          end
                      end
                    else None
                | [] => None
                end
            end
          else None
      | [] => None
      end
  end.

(** A JSON text is one value with white space around it.  Two units of
    fuel per character are enough ([read_value_fuel] below). *)
Definition enough_fuel (input : list ascii) : nat := 2 * length input + 2.

Definition json_parse (text : string) : option json :=
  let input := list_ascii_of_string text in
  match read_value (enough_fuel input) input with
  | Some (j, rest) =>
      match skip_ws rest with
      | [] => Some j
      | _ :: _ => None
      end
  | None => None
  end.

End Json.

(* ================================================================== *)
(** * Vocabulary of the statements *)
(* ================================================================== *)

(** [Subseq xs ys]: [xs] is [ys] with some elements left out, the others
    in their original order. *)
Inductive Subseq {A : Type} : list A -> list A -> Prop :=
| Subseq_nil : Subseq [] []
| Subseq_keep x xs ys : Subseq xs ys -> Subseq (x :: xs) (x :: ys)
| Subseq_drop y xs ys : Subseq xs ys -> Subseq xs (y :: ys).

(** One [key=value] pair of a query string. *)
Definition pair_text (kv : string * value) : string :=
  fst kv ++ "=" ++ toString (snd kv).

(** Written from the specification's words: the [key=value] texts of a
    parameter mapping, where a key whose value is [undefined] is left
    out and every other key is kept, in the order of the mapping. *)
Fixpoint defined_pairs (params : object) : list string :=
  match params with
  | [] => []
  | (key, VUndefined) :: rest => defined_pairs rest
  | (key, v) :: rest => (key ++ "=" ++ toString v) :: defined_pairs rest
  end.

(** The URL up to and including the key, before any parameter. *)
Definition baseURL (c : client) (subdomain apiName : string) : string :=
  "https://" ++ subdomain ++ ".builtwith.com/" ++ apiName ++ "/api."
    ++ toString (responseFormat c) ++ "?KEY=" ++ toString (apiKey c).

(** The client the examples run on: key ["K"], format ["json"]. *)
Definition K_json : client := Client (VStr "K") (VStr "json").
Definition K_txt : client := Client (VStr "K") (VStr "txt").

(** A remote service that answers every request with the same body. *)
Definition always (body : string) : string -> option string :=
  fun _ => Some body.

(** The world after one request to [url]. *)
Definition requested (url : string) (w : world) : world :=
  World (console w) (requests w ++ [url]).

(** The world after one more console line. *)
Definition warned (line : string) (w : world) : world :=
  World (console w ++ [line]) (requests w).

(** What a successful read with some fuel says: it moved forward, and
    twice the number of characters it read is fuel enough to repeat it. *)
Definition settled {A : Type}
    (read : nat -> list ascii -> option (A * list ascii)) (f : nat) : Prop :=
  forall s a rest,
    read f s = Some (a, rest) ->
    (length rest < length s)%nat
    /\ forall g, (2 * (length s - length rest) <= g)%nat -> read g s = Some (a, rest).

(** [module.exports]: the function the package exports. *)
Definition module_exports (apiKey moduleParams : value) : M client :=
  BuiltWith apiKey moduleParams.

Definition K_xml : client := Client (VStr "K") (VStr "xml").

(** One call of a method of the table [BuiltWith] returns. *)
Inductive call : Type :=
| CallFree (url : value)
| CallDomain (url params : value)
| CallLists (technologies params : value)
| CallRelationships (url : value)
| CallKeywords (url : value)
| CallTrends (technology params : value)
| CallCompanyToUrl (companyName params : value).

(** The URL the call hands to [fetch]. *)
Definition call_url (c : client) (k : call) : string :=
  match k with
  | CallFree url => free_url c url
  | CallDomain url params => domain_url c url params
  | CallLists technologies params => lists_url c technologies params
  | CallRelationships url => relationships_url c url
  | CallKeywords url => keywords_url c url
  | CallTrends technology params => trends_url c technology params
  | CallCompanyToUrl companyName params => companyToUrl_url c companyName params
  end.

(** The five methods that end in the [text()]/[json()] handler; the
    other two, [lists] and [trends], parse the text themselves. *)
Definition single_lookup (k : call) : bool :=
  match k with
  | CallLists _ _ | CallTrends _ _ => false
  | _ => true
  end.

Section Calls.

Variable J : Type.
Variable JSON_parse : string -> option J.
Variable transport : string -> option string.

Definition run (c : client) (k : call) : M (payload J) :=
  match k with
  | CallFree url => free J JSON_parse transport c url
  | CallDomain url params => domain J JSON_parse transport c url params
  | CallLists technologies params =>
      lists J JSON_parse transport c technologies params
  | CallRelationships url => relationships J JSON_parse transport c url
  | CallKeywords url => keywords J JSON_parse transport c url
  | CallTrends technology params =>
      trends J JSON_parse transport c technology params
  | CallCompanyToUrl companyName params =>
      companyToUrl J JSON_parse transport c companyName params
  end.

(** What each method does with the response: the five single-object
    lookups share one handler, [lists] and [trends] have their own
    branch. *)
Definition handler (c : client) (k : call) (res : response) : M (payload J) :=
  if single_lookup k then text_or_json J JSON_parse c res
  else
    match k with
    | CallLists _ _ =>
        if strict_eq (responseFormat c) TXT || strict_eq (responseFormat c) XML
        then as_text J (res_text res)
        else parse_or_fall_back J JSON_parse res
    | _ =>
        if strict_eq (responseFormat c) XML
        then as_text J (res_text res)
        else parse_or_fall_back J JSON_parse res
    end.

End Calls.

(** [has_char a s]: the character [a] occurs in [s]. *)
Fixpoint has_char (a : ascii) (s : string) : bool :=
  match s with
  | EmptyString => false
  | String c s' => Ascii.eqb c a || has_char a s'
  end.

(** Neither the key nor the printed value of an entry holds an [&]. *)
Definition amp_free (params : object) : Prop :=
  Forall (fun kv => has_char "&" (fst kv) = false
                    /\ has_char "&" (toString (snd kv)) = false) params.

(** [s] cut at every [sep]; the pieces of the empty string are one
    empty piece. *)
Fixpoint split_on (sep : ascii) (s : string) : list string :=
  match s with
  | EmptyString => [EmptyString]
  | String c s' =>
      if Ascii.eqb c sep then EmptyString :: split_on sep s'
      else
        match split_on sep s' with
        | piece :: pieces => String c piece :: pieces
        | [] => [String c EmptyString]
        end
  end.

(* ================================================================== *)
(** * Properties *)
(* ================================================================== *)

(** ** Query strings *)

Lemma is_undefined_false (v : value) :
  is_undefined v = false <-> v <> VUndefined.
Proof.
  destruct v; simpl; split; intro H; try reflexivity; try discriminate;
    try congruence.
Qed.

Lemma queryPairs_nil : queryPairs [] = [].
Proof. reflexivity. Qed.

Lemma queryPairs_undefined (key : string) (rest : object) :
  queryPairs ((key, VUndefined) :: rest) = queryPairs rest.
Proof. reflexivity. Qed.

Lemma queryPairs_defined (key : string) (v : value) (rest : object) :
  v <> VUndefined ->
  queryPairs ((key, v) :: rest) = pair_text (key, v) :: queryPairs rest.
Proof.
  intro Hv. apply is_undefined_false in Hv.
  unfold queryPairs, Object_entries. simpl. rewrite Hv. reflexivity.
Qed.

Lemma queryPairs_app (a b : object) :
  queryPairs (a ++ b)%list = (queryPairs a ++ queryPairs b)%list.
Proof.
  unfold queryPairs, Object_entries.
  rewrite filter_app, map_app. reflexivity.
Qed.

Lemma queryPairs_all_undefined (params : object) :
  Forall (fun kv => snd kv = VUndefined) params -> queryPairs params = [].
Proof.
  induction 1 as [| [key v] rest Hv _ IH]; [reflexivity |].
  simpl in Hv. subst v. rewrite queryPairs_undefined. exact IH.
Qed.

Lemma Subseq_filter {A : Type} (keep : A -> bool) (l : list A) :
  Subseq (filter keep l) l.
Proof.
  induction l as [| x l IH]; simpl.
  - constructor.
  - destruct (keep x); constructor; exact IH.
Qed.

Lemma queryPairs_defined_pairs (params : object) :
  queryPairs params = defined_pairs params.
Proof.
  induction params as [| [key v] rest IH]; [reflexivity |].
  destruct v;
    try (rewrite queryPairs_defined by discriminate; rewrite IH; reflexivity).
  rewrite queryPairs_undefined. exact IH.
Qed.

Lemma defined_pairs_app (a b : object) :
  defined_pairs (a ++ b)%list = (defined_pairs a ++ defined_pairs b)%list.
Proof. rewrite <- !queryPairs_defined_pairs. apply queryPairs_app. Qed.

(** C2.  For every parameter mapping whose values are strings, booleans,
    [null], [undefined] or safe integers, the string
    [paramsObjToQueryString] returns is the [key=value] texts of the
    mapping joined by [&], where the texts are those of a sub-list [kept]
    of the entries, in the order of the entries, that holds exactly the
    entries whose value is not [undefined].  At the place of an entry
    whose value is [undefined] the string has nothing; at the place of an
    entry whose value is [false], [0] or the empty string it has
    [key=false], [key=0] or [key=]. *)
Theorem paramsObjToQueryString_keeps_defined (params : object) :
  Forall (fun kv => printable (snd kv) = true) params ->
  paramsObjToQueryString params = String.concat "&" (defined_pairs params)
  /\ (exists kept : list (string * value),
        Subseq kept params
        /\ (forall kv, In kv kept <-> In kv params /\ snd kv <> VUndefined)
        /\ defined_pairs params
           = map (fun kv => fst kv ++ "=" ++ toString (snd kv)) kept)
  /\ (forall before key after,
        params = (before ++ (key, VUndefined) :: after)%list ->
        paramsObjToQueryString params
        = String.concat "&" (defined_pairs before ++ defined_pairs after)%list)
  /\ (forall before key v text after,
        params = (before ++ (key, v) :: after)%list ->
        In (v, text) [ (VBool false, "false");
                       (VNum 0, "0");
                       (VStr EmptyString, EmptyString) ] ->
        paramsObjToQueryString params
        = String.concat "&"
            (defined_pairs before
               ++ (key ++ "=" ++ text)%string :: defined_pairs after)%list).
Proof.
  intros _.
  assert (Hqs : forall p, paramsObjToQueryString p
                          = String.concat "&" (defined_pairs p)).
  { intro p. unfold paramsObjToQueryString, join.
    rewrite queryPairs_defined_pairs. reflexivity. }
  split; [apply Hqs | split; [| split]].
  - exists (filter (fun kv => if is_undefined (snd kv) then false else true)
              params).
    split; [apply Subseq_filter | split].
    + intro kv. rewrite filter_In, <- is_undefined_false.
      destruct (is_undefined (snd kv)); intuition congruence.
    + rewrite <- queryPairs_defined_pairs. reflexivity.
  - intros before key after ->. rewrite Hqs, defined_pairs_app. reflexivity.
  - intros before key v text after -> Hv.
    rewrite Hqs, defined_pairs_app.
    simpl in Hv.
    destruct Hv as [E | [E | [E | []]]]; injection E as <- <-; reflexivity.
Qed.

Lemma paramsObjToQueryString_keeps_defined_witness :
  paramsObjToQueryString
    [ ("LOOKUP", VStr "a.com");
      ("HIDETEXT", VBool false);
      ("DATE", VUndefined);
      ("OFFSET", VNum 0);
      ("SINCE", VStr EmptyString);
      ("TLD", VNull) ]
  = "LOOKUP=a.com&HIDETEXT=false&OFFSET=0&SINCE=&TLD=null".
Proof.
  refine (proj1 (paramsObjToQueryString_keeps_defined
                   [ ("LOOKUP", VStr "a.com");
                     ("HIDETEXT", VBool false);
                     ("DATE", VUndefined);
                     ("OFFSET", VNum 0);
                     ("SINCE", VStr EmptyString);
                     ("TLD", VNull) ] _)).
  repeat constructor.
Defined.

(** ** The URL builder *)

Lemma constructBuiltWithURL_defaults (c : client) (apiName : string) :
  constructBuiltWithURL c apiName None None = baseURL c "api" apiName.
Proof. reflexivity. Qed.

(** C7, as the code has it.  The test [_.isEmpty(requestParams)] is made
    on the object as it was passed, before the [undefined] values are
    filtered out: the empty object gives the bare base URL; an object with
    at least one key gives the base URL, [&] and the joined pairs; and
    when every value of such an object is [undefined] the pairs are none
    and the URL ends with that [&]. *)
Theorem constructBuiltWithURL_guard_precedes_filter
    (c : client) (apiName : string) (requestParams : object)
    (subdomain : option string) :
  let base :=
    baseURL c (match subdomain with Some s => s | None => "api" end) apiName in
  let url := constructBuiltWithURL c apiName (Some requestParams) subdomain in
  (requestParams = [] -> url = base)
  /\ (requestParams <> [] ->
      url = base ++ "&" ++ join "&" (queryPairs requestParams))
  /\ (requestParams <> [] ->
      Forall (fun kv => snd kv = VUndefined) requestParams ->
      url = base ++ "&").
Proof.
  intros base url. subst base url.
  unfold constructBuiltWithURL, baseURL, paramsObjToQueryString.
  destruct requestParams as [| kv rest].
  - repeat split; try reflexivity; intro H; contradiction H; reflexivity.
  - repeat split; try discriminate; try reflexivity.
    intros _ Hall. rewrite (queryPairs_all_undefined _ Hall). reflexivity.
Qed.

Lemma constructBuiltWithURL_guard_precedes_filter_witness :
  constructBuiltWithURL K_json "v14"
    (Some [("LOOKUP", VStr "a.com"); ("NOMETA", VUndefined)]) (Some "api")
  = "https://api.builtwith.com/v14/api.json?KEY=K&LOOKUP=a.com".
Proof.
  refine (eq_trans
    (proj1 (proj2 (constructBuiltWithURL_guard_precedes_filter K_json "v14"
       [("LOOKUP", VStr "a.com"); ("NOMETA", VUndefined)] (Some "api"))) _) _).
  - discriminate.
  - reflexivity.
Defined.

(** C7 as the specification words it fails: the one value of
    [{ LOOKUP: undefined }] is [undefined], the object is not empty, and
    the URL built from it is the base URL followed by [&]. *)
Lemma constructBuiltWithURL_all_undefined_trailing_amp :
  Forall (fun kv => snd kv = VUndefined) [("LOOKUP", VUndefined)]
  /\ queryPairs [("LOOKUP", VUndefined)] = []
  /\ constructBuiltWithURL K_json "free1" (Some [("LOOKUP", VUndefined)]) None
     = "https://api.builtwith.com/free1/api.json?KEY=K&"
  /\ constructBuiltWithURL K_json "free1" (Some [("LOOKUP", VUndefined)]) None
     <> baseURL K_json "api" "free1".
Proof.
  repeat split.
  - repeat constructor.
  - discriminate.
Qed.

(** ** domain *)

Lemma get_default_defined (obj : value) (path : string) (d : value) :
  d <> VUndefined -> Lodash.get obj path d <> VUndefined.
Proof.
  intro Hd. unfold Lodash.get.
  destruct (is_undefined _) eqn:E; [exact Hd |].
  apply is_undefined_false. exact E.
Qed.

Lemma BuiltWith_K_json (w : world) :
  BuiltWith (VStr "K") (VObj [("responseFormat", VStr "json")]) w
  = (Return K_json, w).
Proof. destruct w. reflexivity. Qed.

(** C1, as the code has it.  On the client built from key ["K"] and format
    ["json"], [domain("a.com", { hideAll: true })] issues one request, to
    the URL whose parameters come in the declared order LOOKUP, HIDETEXT,
    HIDEDL, LIVEONLY, NOMETA, NOATTR; the four flags that were not given
    hold their default [false], which is not [undefined], so they stay in
    the query string. *)
Theorem domain_hideAll_request
    (J : Type) (JSON_parse : string -> option J)
    (transport : string -> option string) :
  BuiltWith (VStr "K") (VObj [("responseFormat", VStr "json")]) quiet
  = (Return K_json, quiet)
  /\ requests (snd (domain J JSON_parse transport K_json (VStr "a.com")
                      (VObj [("hideAll", VBool true)]) quiet))
     = ["https://api.builtwith.com/v14/api.json?KEY=K&LOOKUP=a.com&HIDETEXT=true&HIDEDL=false&LIVEONLY=false&NOMETA=false&NOATTR=false"].
Proof.
  split; [reflexivity |].
  unfold domain, bind, fetch, record_request. simpl.
  destruct (transport _); simpl.
  - destruct (text_or_json _ _ _ _ _) as [r w] eqn:E.
    unfold text_or_json, res_json, JSON_parse_text in E. simpl in E.
    destruct (JSON_parse _); inversion E; reflexivity.
  - reflexivity.
Qed.

(** C1 as the specification words it fails: the URL of that call is not
    the one that stops after [HIDETEXT=true]. *)
Lemma domain_hideAll_url_is_longer :
  domain_url K_json (VStr "a.com") (VObj [("hideAll", VBool true)])
  <> "https://api.builtwith.com/v14/api.json?KEY=K&LOOKUP=a.com&HIDETEXT=true".
Proof. discriminate. Qed.

(** C10.  With the options left out, or empty, the URL of [domain(url)]
    is the base URL, the LOOKUP pair and then the five flags, each
    [false]; and whatever the options are, none of the five flags is
    [undefined] in the request parameters, so none is ever filtered out
    of the query string. *)
Theorem domain_flags_default_false
    (c : client) (url : string) (params : value) :
  let defaults :=
    baseURL c "api" "v14" ++ "&LOOKUP=" ++ url
      ++ "&HIDETEXT=false&HIDEDL=false&LIVEONLY=false&NOMETA=false&NOATTR=false" in
  domain_url c (VStr url) VUndefined = defaults
  /\ domain_url c (VStr url) (VObj []) = defaults
  /\ Forall (fun flag =>
               Lodash.own (domain_params (VStr url) params) flag <> VUndefined)
       ["HIDETEXT"; "HIDEDL"; "LIVEONLY"; "NOMETA"; "NOATTR"].
Proof.
  split; [reflexivity | split; [reflexivity |]].
  repeat constructor; apply get_default_defined; discriminate.
Qed.

(** ** companyToUrl *)

(** C6 on the code.  [companyToUrl] reads its [amount] from the option
    named [noMetaData]: an [amount] option never reaches the URL, and a
    [noMetaData] option is sent as AMOUNT.  The [tld] option, the company
    name, the [ctu] subdomain and the [ctu1] path are as the table says. *)
Theorem companyToUrl_amount_read_from_noMetaData :
  companyToUrl_url K_json (VStr "Acme") (VObj [("amount", VNum 5)])
  = "https://ctu.builtwith.com/ctu1/api.json?KEY=K&COMPANY=Acme"
  /\ companyToUrl_url K_json (VStr "Acme")
       (VObj [("tld", VStr "com"); ("amount", VNum 5)])
     = "https://ctu.builtwith.com/ctu1/api.json?KEY=K&COMPANY=Acme&TLD=com"
  /\ companyToUrl_url K_json (VStr "Acme") (VObj [("noMetaData", VNum 5)])
     = "https://ctu.builtwith.com/ctu1/api.json?KEY=K&COMPANY=Acme&AMOUNT=5".
Proof. repeat split. Qed.

(** ** Construction *)

Lemma strict_eq_VStr (v : value) (s : string) :
  strict_eq v (VStr s) = true <-> v = VStr s.
Proof.
  destruct v; simpl; split; intro H; try discriminate.
  - apply String.eqb_eq in H. congruence.
  - injection H as ->. apply String.eqb_refl.
Qed.

Lemma includes_VALID_RESPONSE_TYPES (fmt : value) :
  includes (Object_values VALID_RESPONSE_TYPES) fmt = true
  <-> fmt = VStr "xml" \/ fmt = VStr "json" \/ fmt = VStr "txt".
Proof.
  unfold includes. simpl. rewrite !orb_true_iff, !strict_eq_VStr.
  intuition discriminate.
Qed.

Lemma get_of_defaulted (moduleParams : value) (path : string) (d : value) :
  Lodash.get (if is_undefined moduleParams then VObj [] else moduleParams) path d
  = Lodash.get moduleParams path d.
Proof. destruct moduleParams; reflexivity. Qed.

(** C8.  When the [responseFormat] of the module parameters is none of
    ["xml"], ["json"], ["txt"] (it may be missing, hence [undefined]),
    [BuiltWith] throws: the caller gets an [Error] that quotes the value
    and no client, nothing was written to the console and no request was
    issued. *)
Theorem BuiltWith_rejects_invalid_format
    (apiKey moduleParams : value) (w : world) :
  let fmt := Lodash.get moduleParams "responseFormat" VUndefined in
  fmt <> VStr "xml" -> fmt <> VStr "json" -> fmt <> VStr "txt" ->
  BuiltWith apiKey moduleParams w
  = (Throw (Error ("Invalid 'responseFormat'. Valid format are 'xml', 'txt', and 'json'. You input "
                     ++ toString fmt)), w).
Proof.
  intros fmt Hx Hj Ht. unfold BuiltWith.
  rewrite get_of_defaulted. fold fmt.
  destruct (includes (Object_values VALID_RESPONSE_TYPES) fmt) eqn:E.
  - apply includes_VALID_RESPONSE_TYPES in E. intuition congruence.
  - reflexivity.
Qed.

Lemma BuiltWith_rejects_invalid_format_witness :
  BuiltWith (VStr "K") (VObj [("responseFormat", VStr "yaml")]) quiet
  = (Throw (Error "Invalid 'responseFormat'. Valid format are 'xml', 'txt', and 'json'. You input yaml"),
     quiet).
Proof.
  apply (BuiltWith_rejects_invalid_format (VStr "K")
           (VObj [("responseFormat", VStr "yaml")]) quiet);
    simpl; discriminate.
Defined.

Lemma BuiltWith_missing_format (apiKey : value) (w : world) :
  BuiltWith apiKey VUndefined w
  = (Throw (Error "Invalid 'responseFormat'. Valid format are 'xml', 'txt', and 'json'. You input undefined"),
     w)
  /\ BuiltWith apiKey (VObj []) w = BuiltWith apiKey VUndefined w.
Proof. split; reflexivity. Qed.

(** C9.  When the [responseFormat] is ["txt"], [BuiltWith] returns the
    client and writes one line to the console, the TXT warning; it issues
    no request. *)
Theorem BuiltWith_txt_warns_once
    (apiKey moduleParams : value) (w : world) :
  Lodash.get moduleParams "responseFormat" VUndefined = VStr "txt" ->
  BuiltWith apiKey moduleParams w
  = (Return (Client apiKey (VStr "txt")),
     World (console w ++ [TXT_WARNING]) (requests w)).
Proof.
  intro H. unfold BuiltWith. rewrite get_of_defaulted, H. reflexivity.
Qed.

Lemma BuiltWith_txt_warns_once_witness :
  BuiltWith (VStr "K") (VObj [("responseFormat", VStr "txt")]) quiet
  = (Return K_txt, World [TXT_WARNING] []).
Proof.
  exact (BuiltWith_txt_warns_once (VStr "K")
           (VObj [("responseFormat", VStr "txt")]) quiet eq_refl).
Defined.

Lemma BuiltWith_other_formats_silent (apiKey moduleParams : value) (w : world) :
  Lodash.get moduleParams "responseFormat" VUndefined = VStr "xml"
  \/ Lodash.get moduleParams "responseFormat" VUndefined = VStr "json" ->
  exists c, BuiltWith apiKey moduleParams w = (Return c, w).
Proof.
  intros [H | H]; unfold BuiltWith; rewrite get_of_defaulted, H;
    eexists; destruct w; reflexivity.
Qed.

(** ** Responses *)

Lemma bind_Return {A B : Type} (m : M A) (k : A -> M B) (w w' : world) (a : A) :
  m w = (Return a, w') -> bind m k w = k a w'.
Proof. intro H. unfold bind. rewrite H. reflexivity. Qed.

Lemma bind_Throw {A B : Type} (m : M A) (k : A -> M B) (w w' : world) (e : error) :
  m w = (Throw e, w') -> bind m k w = (Throw e, w').
Proof. intro H. unfold bind. rewrite H. reflexivity. Qed.

Section Responses.

Variable J : Type.
Variable JSON_parse : string -> option J.
Variable transport : string -> option string.

Lemma fetch_answer (url body : string) (w : world) :
  transport url = Some body ->
  fetch transport url w = (Return (Response body), requested url w).
Proof.
  intro H. unfold fetch, bind, record_request. simpl. rewrite H. reflexivity.
Qed.

Lemma fetch_no_answer (url : string) (w : world) :
  transport url = None ->
  fetch transport url w = (Throw TransportFailure, requested url w).
Proof.
  intro H. unfold fetch, bind, record_request. simpl. rewrite H. reflexivity.
Qed.

Lemma parse_or_fall_back_valid (b : string) (j : J) (w : world) :
  JSON_parse b = Some j ->
  parse_or_fall_back J JSON_parse (Response b) w = (Return (Parsed j), w).
Proof.
  intro H.
  unfold parse_or_fall_back, bind, res_text, try_catch, JSON_parse_text, ret.
  simpl. rewrite H. reflexivity.
Qed.

Lemma parse_or_fall_back_invalid (b : string) (w : world) :
  JSON_parse b = None ->
  parse_or_fall_back J JSON_parse (Response b) w
  = (Return (Text b), warned FALLBACK_WARNING w).
Proof.
  intro H.
  unfold parse_or_fall_back, bind, res_text, try_catch, JSON_parse_text, ret.
  simpl. rewrite H. reflexivity.
Qed.

Lemma text_or_json_not_xml (c : client) (b : string) (w : world) :
  strict_eq (responseFormat c) XML = false ->
  text_or_json J JSON_parse c (Response b) w
  = match JSON_parse b with
    | Some j => (Return (Parsed j), w)
    | None => (Throw InvalidJSON, w)
    end.
Proof.
  intro H. unfold text_or_json, res_json, JSON_parse_text. rewrite H. simpl.
  destruct (JSON_parse b); reflexivity.
Qed.

(** C3.  On a client whose format is ["json"], when the service answers
    the [lists] request with a body that [JSON.parse] rejects, the call
    resolves to that body as a string, and the run has written the
    fallback warning to the console (after the one request). *)
Theorem lists_json_invalid_body_resolves_to_text
    (c : client) (technologies params : value) (b : string) (w : world) :
  responseFormat c = VStr "json" ->
  transport (lists_url c technologies params) = Some b ->
  JSON_parse b = None ->
  lists J JSON_parse transport c technologies params w
  = (Return (Text b),
     warned FALLBACK_WARNING (requested (lists_url c technologies params) w)).
Proof.
  intros Hfmt Hanswer Hparse. unfold lists.
  rewrite (bind_Return _ _ _ _ _ (fetch_answer _ _ w Hanswer)).
  rewrite Hfmt. simpl.
  apply parse_or_fall_back_invalid. exact Hparse.
Qed.

(** The warning belongs to the downgrade: a body that parses is returned
    parsed and nothing is written. *)
Lemma lists_json_valid_body_resolves_to_value
    (c : client) (technologies params : value) (b : string) (j : J) (w : world) :
  responseFormat c = VStr "json" ->
  transport (lists_url c technologies params) = Some b ->
  JSON_parse b = Some j ->
  lists J JSON_parse transport c technologies params w
  = (Return (Parsed j), requested (lists_url c technologies params) w).
Proof.
  intros Hfmt Hanswer Hparse. unfold lists.
  rewrite (bind_Return _ _ _ _ _ (fetch_answer _ _ w Hanswer)).
  rewrite Hfmt. simpl.
  apply parse_or_fall_back_valid. exact Hparse.
Qed.

(** C4.  On a client whose format is ["json"], when the service answers
    the [free] request with a body that is not valid JSON, the call
    rejects with the parse error; nothing is written to the console. *)
Theorem free_json_invalid_body_rejects
    (c : client) (url : value) (b : string) (w : world) :
  responseFormat c = VStr "json" ->
  transport (free_url c url) = Some b ->
  JSON_parse b = None ->
  free J JSON_parse transport c url w
  = (Throw InvalidJSON, requested (free_url c url) w).
Proof.
  intros Hfmt Hanswer Hparse. unfold free.
  rewrite (bind_Return _ _ _ _ _ (fetch_answer _ _ w Hanswer)).
  rewrite text_or_json_not_xml by (rewrite Hfmt; reflexivity).
  rewrite Hparse. reflexivity.
Qed.

(** C5, as the code has it.  [trends] returns the body as text without
    parsing only when the format is ["xml"].  On a client whose format is
    ["txt"] it tries [JSON.parse] first: a body that parses resolves to
    the parsed value, a body that does not resolves to the body as a
    string, with the fallback warning written to the console. *)
Theorem trends_txt_parses_then_falls_back
    (c : client) (technology params : value) (b : string) (w : world) :
  responseFormat c = VStr "txt" ->
  transport (trends_url c technology params) = Some b ->
  trends J JSON_parse transport c technology params w
  = match JSON_parse b with
    | Some j =>
        (Return (Parsed j), requested (trends_url c technology params) w)
    | None =>
        (Return (Text b),
         warned FALLBACK_WARNING (requested (trends_url c technology params) w))
    end.
Proof.
  intros Hfmt Hanswer. unfold trends.
  rewrite (bind_Return _ _ _ _ _ (fetch_answer _ _ w Hanswer)).
  rewrite Hfmt. simpl.
  destruct (JSON_parse b) as [j |] eqn:E.
  - apply parse_or_fall_back_valid. exact E.
  - apply parse_or_fall_back_invalid. exact E.
Qed.

Lemma trends_xml_resolves_to_text
    (c : client) (technology params : value) (b : string) (w : world) :
  responseFormat c = VStr "xml" ->
  transport (trends_url c technology params) = Some b ->
  trends J JSON_parse transport c technology params w
  = (Return (Text b), requested (trends_url c technology params) w).
Proof.
  intros Hfmt Hanswer. unfold trends.
  rewrite (bind_Return _ _ _ _ _ (fetch_answer _ _ w Hanswer)).
  rewrite Hfmt. reflexivity.
Qed.

(** No answer from the service: the call rejects with the transport's
    failure, whatever the format. *)
Lemma free_without_answer_rejects (c : client) (url : value) (w : world) :
  transport (free_url c url) = None ->
  free J JSON_parse transport c url w
  = (Throw TransportFailure, requested (free_url c url) w).
Proof.
  intro Hnone. unfold free.
  apply bind_Throw. apply fetch_no_answer. exact Hnone.
Qed.

End Responses.

Lemma lists_json_invalid_body_resolves_to_text_witness :
  lists Json.json Json.json_parse (always "Error: invalid key") K_json
    (VArr [VStr "php"]) VUndefined quiet
  = (Return (Text "Error: invalid key"),
     World [FALLBACK_WARNING]
       ["https://api.builtwith.com/lists5/api.json?KEY=K&TECH=php&META=false"]).
Proof.
  exact (lists_json_invalid_body_resolves_to_text Json.json Json.json_parse
           (always "Error: invalid key") K_json (VArr [VStr "php"]) VUndefined
           "Error: invalid key" quiet eq_refl eq_refl eq_refl).
Defined.

Lemma free_json_invalid_body_rejects_witness :
  free Json.json Json.json_parse (always "<html>Service Unavailable</html>") K_json
    (VStr "example.com") quiet
  = (Throw InvalidJSON,
     World [] ["https://api.builtwith.com/free1/api.json?KEY=K&LOOKUP=example.com"]).
Proof.
  exact (free_json_invalid_body_rejects Json.json Json.json_parse
           (always "<html>Service Unavailable</html>") K_json (VStr "example.com")
           "<html>Service Unavailable</html>" quiet eq_refl eq_refl eq_refl).
Defined.

Lemma trends_txt_parses_then_falls_back_witness :
  trends Json.json Json.json_parse (always "Error: invalid key") K_txt
    (VStr "jQuery") VUndefined quiet
  = (Return (Text "Error: invalid key"),
     World [FALLBACK_WARNING]
       ["https://api.builtwith.com/trends/v6/api.txt?KEY=K&TECH=jQuery"]).
Proof.
  exact (trends_txt_parses_then_falls_back Json.json Json.json_parse
           (always "Error: invalid key") K_txt (VStr "jQuery") VUndefined
           "Error: invalid key" quiet eq_refl eq_refl).
Defined.

(** C5 as the specification words it fails: on the ["txt"] client a body
    that is valid JSON, here the text [1], is not returned as text; the
    call resolves to the parsed number. *)
Lemma trends_txt_valid_json_body_is_parsed :
  Json.json_parse "1" = Some (Json.JNumber "1")
  /\ trends Json.json Json.json_parse (always "1") K_txt
       (VStr "jQuery") VUndefined quiet
     = (Return (Parsed (Json.JNumber "1")),
        World [] ["https://api.builtwith.com/trends/v6/api.txt?KEY=K&TECH=jQuery"])
  /\ fst (trends Json.json Json.json_parse (always "1") K_txt
            (VStr "jQuery") VUndefined quiet)
     <> Return (Text "1").
Proof.
  repeat split. discriminate.
Qed.

(** ** The JSON reader *)

Section JsonReader.

Import Json.
Local Open Scope list_scope.

Lemma skip_ws_length (s : list ascii) : length (skip_ws s) <= length s.
Proof.
  induction s as [| c s IH]; simpl; [lia |].
  destruct (is_ws c); simpl; lia.
Qed.

Lemma digits_length (s ds rest : list ascii) :
  digits s = (ds, rest) -> length s = length ds + length rest.
Proof.
  revert ds rest. induction s as [| c s IH]; simpl; intros ds rest H.
  - inversion H. reflexivity.
  - destruct (is_digit c).
    + destruct (digits s) as [ds' rest'] eqn:E. inversion H; subst.
      simpl. rewrite (IH _ _ eq_refl). reflexivity.
    + inversion H. reflexivity.
Qed.

Lemma expect_length (word s rest : list ascii) :
  expect word s = Some rest -> length s = length word + length rest.
Proof.
  revert s. induction word as [| w word IH]; simpl; intros s H.
  - inversion H. reflexivity.
  - destruct s as [| c s]; [discriminate |].
    destruct (Ascii.eqb w c); [| discriminate].
    simpl. rewrite (IH _ H). reflexivity.
Qed.

Lemma read_chars_length (s cs rest : list ascii) :
  read_chars s = Some (cs, rest) -> length rest < length s.
Proof.
  remember (length s) as n eqn:Hn. revert s cs rest Hn.
  induction n as [n IH] using lt_wf_ind. intros s cs rest Hn H.
  destruct s as [| c s]; [discriminate |]. simpl in *.
  destruct (Nat.eqb (code c) 34); [inversion H; subst; lia |].
  destruct (Nat.ltb (code c) 32); [discriminate |].
  destruct (Nat.eqb (code c) 92).
  - destruct s as [| e s]; [discriminate |].
    destruct (Nat.eqb (code e) 117).
    + destruct s as [| h1 [| h2 [| h3 [| h4 s]]]]; try discriminate.
      destruct (is_hex h1 && is_hex h2 && is_hex h3 && is_hex h4); [| discriminate].
      destruct (read_chars s) as [[cs' after] |] eqn:E; [| discriminate].
      inversion H; subst. simpl.
      assert (length rest < length s) by (eapply (IH (length s)); eauto; simpl; lia).
      lia.
    + match type of H with (if ?b then _ else _) = _ => destruct b end; [| discriminate].
      destruct (read_chars s) as [[cs' after] |] eqn:E; [| discriminate].
      inversion H; subst. simpl.
      assert (length rest < length s) by (eapply (IH (length s)); eauto; simpl; lia).
      lia.
  - destruct (read_chars s) as [[cs' after] |] eqn:E; [| discriminate].
    inversion H; subst.
    assert (length rest < length s) by (eapply (IH (length s)); eauto; lia).
    lia.
Qed.

Lemma read_number_length (s lexeme rest : list ascii) :
  read_number s = Some (lexeme, rest) -> length rest < length s.
Proof.
  unfold read_number. intro H.
  assert (Hskip : forall l : list ascii, length (skipn 1 l) <= length l).
  { intros [| x l]; simpl; lia. }
  destruct (if starts_with 45 s then (firstn 1 s, skipn 1 s) else ([], s))
    as [sign s1] eqn:E1.
  assert (L1 : length s1 <= length s).
  { destruct (starts_with 45 s); inversion E1; subst; [apply Hskip | lia]. }
  destruct (digits s1) as [int s2] eqn:E2.
  apply digits_length in E2.
  destruct int as [| d more]; [discriminate |]. simpl in E2.
  match type of H with (if ?b then _ else _) = _ => destruct b end;
    [discriminate |].
  match type of H with match ?f with _ => _ end = _ =>
    destruct f as [[fr s3] |] eqn:E3 end; [| discriminate].
  assert (L3 : length s3 <= length s2).
  { destruct (starts_with 46 s2).
    - destruct (digits (skipn 1 s2)) as [fs s3'] eqn:E4.
      apply digits_length in E4. specialize (Hskip s2).
      destruct fs; inversion E3; subst. rewrite E4 in Hskip. simpl in Hskip. lia.
    - inversion E3; subst; lia. }
  destruct (starts_with 101 s3 || starts_with 69 s3).
  - match type of H with (let (_, _) := ?p in _) = _ =>
      destruct p as [esign s5] eqn:E5 end.
    assert (L5 : length s5 <= length s3).
    { destruct (starts_with 43 (skipn 1 s3) || starts_with 45 (skipn 1 s3));
        inversion E5; subst.
      - exact (Nat.le_trans _ _ _ (Hskip (skipn 1 s3)) (Hskip s3)).
      - apply Hskip. }
    destruct (digits s5) as [es s6] eqn:E6. apply digits_length in E6.
    destruct es; inversion H; subst; lia.
  - inversion H; subst; lia.
Qed.

Lemma read_scalar_length (s : list ascii) (j : json) (rest : list ascii) :
  read_scalar s = Some (j, rest) -> length rest < length s.
Proof.
  unfold read_scalar, keyword. destruct s as [| c s]; [discriminate |].
  intro H.
  repeat match type of H with (if ?b then _ else _) = _ => destruct b end.
  - destruct (expect _ _) as [r |] eqn:E; [| discriminate].
    apply expect_length in E. inversion H; subst. simpl in *. lia.
  - destruct (expect _ _) as [r |] eqn:E; [| discriminate].
    apply expect_length in E. inversion H; subst. simpl in *. lia.
  - destruct (expect _ _) as [r |] eqn:E; [| discriminate].
    apply expect_length in E. inversion H; subst. simpl in *. lia.
  - destruct (read_chars s) as [[cs after] |] eqn:E; [| discriminate].
    apply read_chars_length in E. inversion H; subst. simpl. lia.
  - destruct (read_number (c :: s)) as [[lx after] |] eqn:E; [| discriminate].
    apply read_number_length in E. inversion H; subst. exact E.
Qed.

Lemma read_value_S (f : nat) (s : list ascii) :
  read_value (S f) s
  = match skip_ws s with
    | [] => None
    | c :: rest =>
        if Nat.eqb (code c) 91 then
          if starts_with 93 (skip_ws rest)
          then Some (JArray [], skipn 1 (skip_ws rest))
          else
            match read_elements f rest with
            | Some (items, after) => Some (JArray items, after)
            | None => None
            end
        else if Nat.eqb (code c) 123 then
          if starts_with 125 (skip_ws rest)
          then Some (JObject [], skipn 1 (skip_ws rest))
          else
            match read_members f rest with
            | Some (members, after) => Some (JObject members, after)
            | None => None
            end
        else read_scalar (c :: rest)
    end.
Proof. reflexivity. Qed.

Lemma read_elements_S (f : nat) (s : list ascii) :
  read_elements (S f) s
  = match read_value f s with
    | None => None
    | Some (v, after) =>
        match skip_ws after with
        | c :: rest =>
            if Nat.eqb (code c) 44 then
              match read_elements f rest with
              | Some (vs, after') => Some (v :: vs, after')
              | None => None
              end
            else if Nat.eqb (code c) 93 then Some ([v], rest)
            else None
        | [] => None
        end
    end.
Proof. reflexivity. Qed.

Lemma read_members_S (f : nat) (s : list ascii) :
  read_members (S f) s
  = match skip_ws s with
    | q :: rest =>
        if Nat.eqb (code q) 34 then
          match read_chars rest with
          | None => None
          | Some (k, after) =>
              match skip_ws after with
              | colon :: rest2 =>
                  if Nat.eqb (code colon) 58 then
                    match read_value f rest2 with
                    | None => None
                    | Some (v, after2) =>
                        let member := (string_of_list_ascii k, v) in
                        match skip_ws after2 with
                        | c :: rest3 =>
                            if Nat.eqb (code c) 44 then
                              match read_members f rest3 with
                              | Some (ms, after') => Some (member :: ms, after')
                              | None => None
                              end
                            else if Nat.eqb (code c) 125
                            then Some ([member], rest3)
                            else None
                        | [] => None
                        end
                    end
                  else None
              | [] => None
              end
          end
        else None
    | [] => None
    end.
Proof. reflexivity. Qed.

Lemma skip_one_ws_length (s : list ascii) :
  length (skipn 1 (skip_ws s)) <= length s.
Proof.
  pose proof (skip_ws_length s). destruct (skip_ws s); simpl in *; lia.
Qed.

Lemma readers_settled (f : nat) :
  settled read_value f /\ settled read_elements f /\ settled read_members f.
Proof.
  induction f as [| f (IHv & IHe & IHm)].
  - repeat split; discriminate.
  - split; [| split]; intros s a rest H.
    + rewrite read_value_S in H.
      pose proof (skip_ws_length s) as Lws.
      destruct (skip_ws s) as [| c r0] eqn:Ews; [discriminate |].
      simpl in Lws.
      destruct (Nat.eqb (code c) 91) eqn:E91;
        [| destruct (Nat.eqb (code c) 123) eqn:E123].
      * destruct (starts_with 93 (skip_ws r0)) eqn:E93.
        -- injection H as <- <-. pose proof (skip_one_ws_length r0) as Hs. simpl in Hs.
           split; [lia |]. intros g Hg. destruct g as [| g]; [lia |].
           rewrite read_value_S, Ews, E91, E93. reflexivity.
        -- destruct (read_elements f r0) as [[items after] |] eqn:Eel;
             [| discriminate].
           injection H as <- <-. destruct (IHe _ _ _ Eel) as [L K].
           split; [lia |]. intros g Hg. destruct g as [| g]; [lia |].
           rewrite read_value_S, Ews, E91, E93, (K g) by lia. reflexivity.
      * destruct (starts_with 125 (skip_ws r0)) eqn:E125.
        -- injection H as <- <-. pose proof (skip_one_ws_length r0) as Hs. simpl in Hs.
           split; [lia |]. intros g Hg. destruct g as [| g]; [lia |].
           rewrite read_value_S, Ews, E91, E123, E125. reflexivity.
        -- destruct (read_members f r0) as [[members after] |] eqn:Eme;
             [| discriminate].
           injection H as <- <-. destruct (IHm _ _ _ Eme) as [L K].
           split; [lia |]. intros g Hg. destruct g as [| g]; [lia |].
           rewrite read_value_S, Ews, E91, E123, E125, (K g) by lia.
           reflexivity.
      * pose proof (read_scalar_length _ _ _ H) as L. simpl in L.
        split; [lia |]. intros g Hg. destruct g as [| g]; [lia |].
        rewrite read_value_S, Ews, E91, E123. exact H.
    + rewrite read_elements_S in H.
      destruct (read_value f s) as [[v after] |] eqn:Ev; [| discriminate].
      destruct (IHv _ _ _ Ev) as [Lv Kv].
      pose proof (skip_ws_length after) as Lws.
      destruct (skip_ws after) as [| c r] eqn:Ews; [discriminate |].
      simpl in Lws.
      destruct (Nat.eqb (code c) 44) eqn:E44;
        [| destruct (Nat.eqb (code c) 93) eqn:E93; [| discriminate]].
      * destruct (read_elements f r) as [[vs after'] |] eqn:Eel;
          [| discriminate].
        injection H as <- <-. destruct (IHe _ _ _ Eel) as [L K].
        split; [lia |]. intros g Hg. destruct g as [| g]; [lia |].
        rewrite read_elements_S, (Kv g) by lia.
        rewrite Ews, E44, (K g) by lia. reflexivity.
      * injection H as <- <-.
        split; [lia |]. intros g Hg. destruct g as [| g]; [lia |].
        rewrite read_elements_S, (Kv g) by lia.
        rewrite Ews, E44, E93. reflexivity.
    + rewrite read_members_S in H.
      pose proof (skip_ws_length s) as Lws.
      destruct (skip_ws s) as [| q r0] eqn:Ews; [discriminate |].
      simpl in Lws.
      destruct (Nat.eqb (code q) 34) eqn:E34; [| discriminate].
      destruct (read_chars r0) as [[k after] |] eqn:Ek; [| discriminate].
      pose proof (read_chars_length _ _ _ Ek) as Lk.
      pose proof (skip_ws_length after) as Lws1.
      destruct (skip_ws after) as [| colon r2] eqn:Ews1; [discriminate |].
      simpl in Lws1.
      destruct (Nat.eqb (code colon) 58) eqn:E58; [| discriminate].
      destruct (read_value f r2) as [[v after2] |] eqn:Ev; [| discriminate].
      destruct (IHv _ _ _ Ev) as [Lv Kv].
      pose proof (skip_ws_length after2) as Lws2.
      destruct (skip_ws after2) as [| c r3] eqn:Ews2; [discriminate |].
      simpl in Lws2. cbv zeta in H.
      destruct (Nat.eqb (code c) 44) eqn:E44;
        [| destruct (Nat.eqb (code c) 125) eqn:E125; [| discriminate]].
      * destruct (read_members f r3) as [[ms after'] |] eqn:Eme;
          [| discriminate].
        injection H as <- <-. destruct (IHm _ _ _ Eme) as [L K].
        split; [lia |]. intros g Hg. destruct g as [| g]; [lia |].
        rewrite read_members_S, Ews, E34, Ek, Ews1, E58, (Kv g) by lia.
        cbv zeta. rewrite Ews2, E44, (K g) by lia. reflexivity.
      * injection H as <- <-.
        split; [lia |]. intros g Hg. destruct g as [| g]; [lia |].
        rewrite read_members_S, Ews, E34, Ek, Ews1, E58, (Kv g) by lia.
        cbv zeta. rewrite Ews2, E44, E125. reflexivity.
Qed.

(** Fuel never decides: a text that can be read with some fuel is read,
    to the same tree, with the fuel [json_parse] gives. *)
Theorem read_value_fuel (f : nat) (s : list ascii) (j : json) (rest : list ascii) :
  read_value f s = Some (j, rest) ->
  read_value (enough_fuel s) s = Some (j, rest).
Proof.
  intro H. destruct (readers_settled f) as [Hv _].
  destruct (Hv _ _ _ H) as [_ K]. apply K. unfold enough_fuel. lia.
Qed.

Corollary json_parse_rejects_at_any_fuel (text : string) :
  json_parse text = None ->
  forall f j rest,
    read_value f (list_ascii_of_string text) = Some (j, rest) ->
    skip_ws rest <> [].
Proof.
  unfold json_parse. intros Hnone f j rest H.
  rewrite (read_value_fuel _ _ _ _ H) in Hnone.
  destruct (skip_ws rest); discriminate.
Qed.

End JsonReader.

(** ** Every method, by category *)

Section EveryCall.

Variable J : Type.
Variable JSON_parse : string -> option J.
Variable transport : string -> option string.

(** Each method is [fetch] of its URL followed by its handler. *)
Lemma run_fetch_then_handle (c : client) (k : call) :
  run J JSON_parse transport c k
  = bind (fetch transport (call_url c k)) (handler J JSON_parse c k).
Proof. destruct k; reflexivity. Qed.

Lemma handler_keeps_requests (c : client) (k : call) (res : response) (w : world) :
  requests (snd (handler J JSON_parse c k res w)) = requests w.
Proof.
  destruct k;
    cbv beta iota delta [handler single_lookup text_or_json res_json
      JSON_parse_text as_text res_text parse_or_fall_back try_catch bind ret
      throw console_warn];
    repeat match goal with
           | |- context [if ?b then _ else _] => destruct b
           | |- context [JSON_parse ?s] => destruct (JSON_parse s)
           end; reflexivity.
Qed.

(** X1.  Whatever the service answers and whatever the format, a call of
    any of the seven methods hands exactly one URL to [fetch], its own,
    and touches no earlier entry of the request log. *)
Theorem every_call_issues_one_request (c : client) (k : call) (w : world) :
  requests (snd (run J JSON_parse transport c k w))
  = (requests w ++ [call_url c k])%list.
Proof.
  rewrite run_fetch_then_handle. unfold bind at 1.
  destruct (transport (call_url c k)) as [b |] eqn:E.
  - rewrite (fetch_answer transport _ _ w E).
    rewrite handler_keeps_requests. reflexivity.
  - rewrite (fetch_no_answer transport _ w E). reflexivity.
Qed.

(** X2.  When the service gives no answer, every method rejects with the
    transport's failure; nothing is parsed and nothing is written to the
    console. *)
Theorem unanswered_call_rejects (c : client) (k : call) (w : world) :
  transport (call_url c k) = None ->
  run J JSON_parse transport c k w
  = (Throw TransportFailure, requested (call_url c k) w).
Proof.
  intro Hnone. rewrite run_fetch_then_handle.
  apply bind_Throw. apply fetch_no_answer. exact Hnone.
Qed.

(** X3.  On a client whose format is ["xml"], every one of the seven
    methods resolves to the body as the service sent it, for every body:
    [JSON.parse] plays no part and the console stays as it was. *)
Theorem xml_call_resolves_to_text (c : client) (k : call) (b : string) (w : world) :
  responseFormat c = VStr "xml" ->
  transport (call_url c k) = Some b ->
  run J JSON_parse transport c k w
  = (Return (Text b), requested (call_url c k) w).
Proof.
  intros Hfmt Hanswer. rewrite run_fetch_then_handle.
  rewrite (bind_Return _ _ _ _ _ (fetch_answer transport _ _ w Hanswer)).
  unfold handler, text_or_json. rewrite Hfmt.
  destruct k; reflexivity.
Qed.

(** X4.  On a client whose format is ["json"] or ["txt"], the five
    single-object lookups (free, domain, relationships, keywords,
    companyToUrl) take [res.json()]: a body that parses resolves to the
    parsed value, any other body rejects with the parse error, and in both
    cases the console stays as it was. *)
Theorem single_lookup_parses_or_rejects
    (c : client) (k : call) (b : string) (w : world) :
  single_lookup k = true ->
  responseFormat c = VStr "json" \/ responseFormat c = VStr "txt" ->
  transport (call_url c k) = Some b ->
  run J JSON_parse transport c k w
  = match JSON_parse b with
    | Some j => (Return (Parsed j), requested (call_url c k) w)
    | None => (Throw InvalidJSON, requested (call_url c k) w)
    end.
Proof.
  intros Hk Hfmt Hanswer. rewrite run_fetch_then_handle.
  rewrite (bind_Return _ _ _ _ _ (fetch_answer transport _ _ w Hanswer)).
  unfold handler. rewrite Hk.
  apply text_or_json_not_xml.
  destruct Hfmt as [-> | ->]; reflexivity.
Qed.

(** X5.  A single-object lookup never writes to the console, whatever
    the format, the answer or its absence. *)
Theorem single_lookup_keeps_console (c : client) (k : call) (w : world) :
  single_lookup k = true ->
  console (snd (run J JSON_parse transport c k w)) = console w.
Proof.
  intro Hk. rewrite run_fetch_then_handle. unfold bind at 1.
  destruct (transport (call_url c k)) as [b |] eqn:E.
  - rewrite (fetch_answer transport _ _ w E).
    unfold handler. rewrite Hk.
    unfold text_or_json, res_json, JSON_parse_text, as_text, res_text,
      bind, ret, throw. simpl.
    destruct (strict_eq (responseFormat c) XML); [reflexivity |].
    destruct (JSON_parse b); reflexivity.
  - rewrite (fetch_no_answer transport _ w E). reflexivity.
Qed.

(** X6.  [lists] and [trends] write to the console only when they fall
    back: after a call either the console is as it was, or it has gained
    exactly the fallback warning and the call has resolved to a body that
    [JSON.parse] rejects. *)
Theorem report_call_warns_only_on_fallback (c : client) (k : call) (w : world) :
  single_lookup k = false ->
  console (snd (run J JSON_parse transport c k w)) = console w
  \/ (console (snd (run J JSON_parse transport c k w))
      = (console w ++ [FALLBACK_WARNING])%list
      /\ exists b, transport (call_url c k) = Some b
                   /\ JSON_parse b = None
                   /\ fst (run J JSON_parse transport c k w) = Return (Text b)).
Proof.
  intro Hk. rewrite run_fetch_then_handle.
  destruct (transport (call_url c k)) as [b |] eqn:E.
  - rewrite (bind_Return _ _ _ _ _ (fetch_answer transport _ _ w E)).
    unfold handler. rewrite Hk.
    destruct (JSON_parse b) as [j |] eqn:P.
    + left.
      destruct k; try discriminate;
        match goal with
        | |- context [if ?t then _ else _] => destruct t
        end;
        try reflexivity;
        rewrite (parse_or_fall_back_valid _ _ _ _ _ P); reflexivity.
    + destruct k; try discriminate;
        match goal with
        | |- context [if ?t then _ else _] => destruct t
        end;
        try (left; reflexivity);
        right; rewrite (parse_or_fall_back_invalid _ _ _ _ P);
        (split; [reflexivity | exists b; repeat split; assumption]).
  - left. rewrite (bind_Throw _ _ _ _ _ (fetch_no_answer transport _ w E)).
    reflexivity.
Qed.

(** X7.  On a client whose format is ["txt"], [lists] resolves to the
    body as the service sent it, for every body, without parsing. *)
Theorem lists_txt_resolves_to_text
    (c : client) (technologies params : value) (b : string) (w : world) :
  responseFormat c = VStr "txt" ->
  transport (lists_url c technologies params) = Some b ->
  lists J JSON_parse transport c technologies params w
  = (Return (Text b), requested (lists_url c technologies params) w).
Proof.
  intros Hfmt Hanswer. unfold lists.
  rewrite (bind_Return _ _ _ _ _ (fetch_answer transport _ _ w Hanswer)).
  rewrite Hfmt. reflexivity.
Qed.

(** X8.  On a client whose format is ["json"], [lists] and [trends]
    parse the body themselves: a body that parses resolves to the parsed
    value and nothing is logged; any other body resolves to the body as a
    string after the fallback warning.  The call never rejects once the
    service has answered. *)
Theorem report_call_json_parses_or_falls_back
    (c : client) (k : call) (b : string) (w : world) :
  single_lookup k = false ->
  responseFormat c = VStr "json" ->
  transport (call_url c k) = Some b ->
  run J JSON_parse transport c k w
  = match JSON_parse b with
    | Some j => (Return (Parsed j), requested (call_url c k) w)
    | None =>
        (Return (Text b),
         warned FALLBACK_WARNING (requested (call_url c k) w))
    end.
Proof.
  intros Hk Hfmt Hanswer. rewrite run_fetch_then_handle.
  rewrite (bind_Return _ _ _ _ _ (fetch_answer transport _ _ w Hanswer)).
  unfold handler. rewrite Hk, Hfmt.
  destruct (JSON_parse b) as [j |] eqn:P;
    destruct k; try discriminate; simpl;
    first [ apply parse_or_fall_back_valid; exact P
          | apply parse_or_fall_back_invalid; exact P ].
Qed.

End EveryCall.

(** ** Request URLs, method by method *)

(** X9.  With a string as the one required argument and the options left
    out, the methods other than [domain] request: [free] path [free1],
    [relationships] path [rv1] and [keywords] path [kw2], each with the
    argument as LOOKUP; [lists] path [lists5] with TECH and [META=false];
    [trends] path [trends/v6] with TECH alone; [companyToUrl] path [ctu1]
    on the [ctu] subdomain with COMPANY alone.  All but the last are on
    the [api] subdomain. *)
Theorem required_argument_urls (c : client) (arg : string) :
  free_url c (VStr arg) = baseURL c "api" "free1" ++ "&LOOKUP=" ++ arg
  /\ relationships_url c (VStr arg) = baseURL c "api" "rv1" ++ "&LOOKUP=" ++ arg
  /\ keywords_url c (VStr arg) = baseURL c "api" "kw2" ++ "&LOOKUP=" ++ arg
  /\ lists_url c (VStr arg) VUndefined
     = baseURL c "api" "lists5" ++ "&TECH=" ++ arg ++ "&META=false"
  /\ trends_url c (VStr arg) VUndefined
     = baseURL c "api" "trends/v6" ++ "&TECH=" ++ arg
  /\ companyToUrl_url c (VStr arg) VUndefined
     = baseURL c "ctu" "ctu1" ++ "&COMPANY=" ++ arg.
Proof. repeat split. Qed.

(** X10.  [domain] sends each boolean option under its own remote key:
    [hideAll] as HIDETEXT, [hideDescriptionAndLinks] as HIDEDL,
    [onlyLiveTechnologies] as LIVEONLY, [noMetaData] as NOMETA and
    [noAttributeData] as NOATTR, in that order after LOOKUP. *)
Theorem domain_flags_forwarded
    (c : client) (url : string) (b1 b2 b3 b4 b5 : bool) :
  domain_url c (VStr url)
    (VObj [ ("hideAll", VBool b1);
            ("hideDescriptionAndLinks", VBool b2);
            ("onlyLiveTechnologies", VBool b3);
            ("noMetaData", VBool b4);
            ("noAttributeData", VBool b5) ])
  = baseURL c "api" "v14" ++ "&LOOKUP=" ++ url
      ++ "&HIDETEXT=" ++ toString (VBool b1)
      ++ "&HIDEDL=" ++ toString (VBool b2)
      ++ "&LIVEONLY=" ++ toString (VBool b3)
      ++ "&NOMETA=" ++ toString (VBool b4)
      ++ "&NOATTR=" ++ toString (VBool b5).
Proof.
  destruct b1, b2, b3, b4, b5; reflexivity.
Qed.

Lemma string_app_assoc (a b c : string) : (a ++ b) ++ c = a ++ b ++ c.
Proof.
  induction a as [| x a IH]; simpl; [reflexivity |].
  rewrite IH. reflexivity.
Qed.

Lemma get_present (key : string) (v d : value) (rest : object) :
  v <> VUndefined -> Lodash.get (VObj ((key, v) :: rest)) key d = v.
Proof.
  intro Hv. apply is_undefined_false in Hv.
  unfold Lodash.get, Lodash.own. simpl. rewrite String.eqb_refl. simpl.
  rewrite Hv. reflexivity.
Qed.

(** X11.  [lists] forwards its options: [includeMetaData] as META,
    [offset] as OFFSET and [since] as SINCE, after TECH and in that order.
    The values are strings, booleans, [null] or safe integers, and each is
    printed as a template literal prints it. *)
Theorem lists_options_forwarded
    (c : client) (tech : string) (meta : bool) (offset since : value) :
  printable offset = true -> printable since = true ->
  offset <> VUndefined -> since <> VUndefined ->
  lists_url c (VStr tech)
    (VObj [ ("includeMetaData", VBool meta);
            ("offset", offset);
            ("since", since) ])
  = baseURL c "api" "lists5" ++ "&TECH=" ++ tech
      ++ "&META=" ++ toString (VBool meta)
      ++ "&OFFSET=" ++ toString offset
      ++ "&SINCE=" ++ toString since.
Proof.
  intros _ _ Ho Hs.
  pose proof (proj2 (is_undefined_false offset) Ho) as Eo.
  pose proof (proj2 (is_undefined_false since) Hs) as Es.
  unfold lists_url, constructBuiltWithURL, paramsObjToQueryString, queryPairs,
    Object_entries, Lodash.get, Lodash.own, baseURL, join.
  simpl. rewrite Eo, Es. simpl. rewrite Eo, Es. simpl.
  destruct meta; simpl; rewrite !string_app_assoc; reflexivity.
Qed.

Lemma toString_array_of_strings (items : list string) :
  toString (VArr (map VStr items)) = String.concat "," items.
Proof.
  simpl. rewrite map_map. rewrite map_id. reflexivity.
Qed.

(** X12.  An array of technology names given to [lists] reaches the URL
    as one TECH parameter, the names joined by commas. *)
Theorem lists_technologies_joined (c : client) (techs : list string) :
  lists_url c (VArr (map VStr techs)) VUndefined
  = baseURL c "api" "lists5" ++ "&TECH=" ++ String.concat "," techs
      ++ "&META=false".
Proof.
  unfold lists_url, constructBuiltWithURL, paramsObjToQueryString, queryPairs,
    Object_entries, baseURL, join.
  cbn [Lodash.get Lodash.isEmpty negb is_undefined filter map snd fst
       String.concat].
  rewrite toString_array_of_strings.
  simpl. rewrite !string_app_assoc. reflexivity.
Qed.

(** X13.  [trends] forwards the [date] option (a string, a boolean,
    [null] or a safe integer) as DATE, after TECH. *)
Theorem trends_date_forwarded (c : client) (tech : string) (date : value) :
  printable date = true ->
  date <> VUndefined ->
  trends_url c (VStr tech) (VObj [("date", date)])
  = baseURL c "api" "trends/v6" ++ "&TECH=" ++ tech
      ++ "&DATE=" ++ toString date.
Proof.
  intros _ Ho. pose proof (proj2 (is_undefined_false date) Ho) as Eo.
  unfold trends_url, constructBuiltWithURL, paramsObjToQueryString,
    queryPairs, Object_entries, Lodash.get, Lodash.own, baseURL, join.
  simpl. rewrite Eo. simpl. rewrite Eo. simpl.
  rewrite !string_app_assoc. reflexivity.
Qed.

(** X14.  [companyToUrl] forwards the [tld] option (a string, a boolean,
    [null] or a safe integer) as TLD, after COMPANY, on the [ctu]
    subdomain. *)
Theorem companyToUrl_tld_forwarded (c : client) (company : string) (tld : value) :
  printable tld = true ->
  tld <> VUndefined ->
  companyToUrl_url c (VStr company) (VObj [("tld", tld)])
  = baseURL c "ctu" "ctu1" ++ "&COMPANY=" ++ company
      ++ "&TLD=" ++ toString tld.
Proof.
  intros _ Ho. pose proof (proj2 (is_undefined_false tld) Ho) as Eo.
  unfold companyToUrl_url, constructBuiltWithURL, paramsObjToQueryString,
    queryPairs, Object_entries, Lodash.get, Lodash.own, baseURL, join.
  simpl. rewrite Eo. simpl. rewrite Eo. simpl.
  rewrite !string_app_assoc. reflexivity.
Qed.

(** ** The constructor, from outside *)

(** X15.  [BuiltWith] returns a client exactly when the [responseFormat]
    of the module parameters is ["xml"], ["json"] or ["txt"]; the client
    it returns holds the key as given and that format; and whether it
    returns or throws, it issues no request. *)
Theorem BuiltWith_returns_iff_valid_format
    (apiKey moduleParams : value) (w : world) :
  let fmt := Lodash.get moduleParams "responseFormat" VUndefined in
  ((exists c w', BuiltWith apiKey moduleParams w = (Return c, w'))
   <-> fmt = VStr "xml" \/ fmt = VStr "json" \/ fmt = VStr "txt")
  /\ (forall c w', BuiltWith apiKey moduleParams w = (Return c, w') ->
                   c = Client apiKey fmt)
  /\ requests (snd (BuiltWith apiKey moduleParams w)) = requests w.
Proof.
  intro fmt. unfold BuiltWith. rewrite get_of_defaulted. fold fmt.
  destruct (includes (Object_values VALID_RESPONSE_TYPES) fmt) eqn:E.
  - pose proof (proj1 (includes_VALID_RESPONSE_TYPES fmt) E) as Hv.
    cbn [negb]. unfold bind, ret, console_warn.
    destruct (strict_eq fmt TXT); cbn; (split; [| split]).
    + split; [intros _; exact Hv | intros _; eauto].
    + intros c w' H. inversion H. reflexivity.
    + reflexivity.
    + split; [intros _; exact Hv | intros _; eauto].
    + intros c w' H. inversion H. reflexivity.
    + reflexivity.
  - cbn [negb]. unfold throw. split; [| split].
    + split.
      * intros (c & w' & H). discriminate.
      * intro Hv. apply includes_VALID_RESPONSE_TYPES in Hv. congruence.
    + intros c w' H. discriminate.
    + reflexivity.
Qed.

Section Exported.

Variable J : Type.
Variable JSON_parse : string -> option J.
Variable transport : string -> option string.

(** X16.  From the exported function to the wire: a client made with a
    string key and one of the three formats, asked for [free(url)],
    issues exactly one request, to
    [https://api.builtwith.com/free1/api.FORMAT?KEY=KEY&LOOKUP=URL]. *)
Theorem exported_client_free_request (key fmt url : string) :
  In fmt ["xml"; "json"; "txt"] ->
  requests
    (snd (bind (module_exports (VStr key)
                  (VObj [("responseFormat", VStr fmt)]))
            (fun c => free J JSON_parse transport c (VStr url)) quiet))
  = ["https://api.builtwith.com/free1/api." ++ fmt ++ "?KEY=" ++ key
       ++ "&LOOKUP=" ++ url].
Proof.
  intro Hfmt.
  assert (Hc : exists w0,
    module_exports (VStr key) (VObj [("responseFormat", VStr fmt)]) quiet
    = (Return (Client (VStr key) (VStr fmt)), w0) /\ requests w0 = []).
  { simpl in Hfmt.
    destruct Hfmt as [<- | [<- | [<- | []]]]; eexists; split; reflexivity. }
  destruct Hc as (w0 & Hc & Hw0).
  rewrite (bind_Return _ _ _ _ _ Hc).
  change (free J JSON_parse transport (Client (VStr key) (VStr fmt)) (VStr url))
    with (run J JSON_parse transport (Client (VStr key) (VStr fmt))
            (CallFree (VStr url))).
  rewrite run_fetch_then_handle.
  set (u := call_url (Client (VStr key) (VStr fmt)) (CallFree (VStr url))).
  assert (Hu : u = "https://api.builtwith.com/free1/api." ++ fmt ++ "?KEY="
                     ++ key ++ "&LOOKUP=" ++ url).
  { subst u. unfold call_url, free_url, constructBuiltWithURL,
      paramsObjToQueryString, queryPairs, Object_entries, join.
    simpl. rewrite !string_app_assoc. reflexivity. }
  unfold bind.
  destruct (transport u) as [b |] eqn:E.
  - rewrite (fetch_answer transport _ _ w0 E).
    rewrite handler_keeps_requests. simpl. rewrite Hw0, Hu. reflexivity.
  - rewrite (fetch_no_answer transport _ w0 E). simpl. rewrite Hw0, Hu.
    reflexivity.
Qed.

End Exported.

(** ** Query strings, as strings *)

Lemma pair_text_of_string (key v : string) :
  pair_text (key, VStr v) = key ++ "=" ++ v.
Proof. reflexivity. Qed.

(** X17.  Values are written into the query string as they are, with no
    escaping: a string value that holds [&name=text] reads, in the query
    string, exactly like a second parameter [name] with value [text]. *)
Theorem paramsObjToQueryString_does_not_escape (key v name text : string) :
  paramsObjToQueryString [(key, VStr (v ++ "&" ++ name ++ "=" ++ text))]
  = paramsObjToQueryString [(key, VStr v); (name, VStr text)].
Proof.
  unfold paramsObjToQueryString, queryPairs, Object_entries, join. simpl.
  rewrite !string_app_assoc. reflexivity.
Qed.

Lemma has_char_app (a : ascii) (x y : string) :
  has_char a (x ++ y) = has_char a x || has_char a y.
Proof.
  induction x as [| c x IH]; simpl; [reflexivity |].
  rewrite IH. apply orb_assoc.
Qed.

Lemma split_on_free (sep : ascii) (x : string) :
  has_char sep x = false -> split_on sep x = [x].
Proof.
  induction x as [| c x IH]; simpl; [reflexivity |].
  intro H. apply orb_false_iff in H. destruct H as [Hc Hx].
  rewrite Hc, (IH Hx). reflexivity.
Qed.

Lemma split_on_app (sep : ascii) (x rest : string) :
  has_char sep x = false ->
  split_on sep (x ++ String sep rest) = x :: split_on sep rest.
Proof.
  induction x as [| c x IH]; simpl.
  - intros _. rewrite Ascii.eqb_refl. reflexivity.
  - intro H. apply orb_false_iff in H. destruct H as [Hc Hx].
    rewrite Hc, (IH Hx). reflexivity.
Qed.

Lemma split_on_join (pieces : list string) :
  pieces <> [] ->
  Forall (fun piece => has_char "&" piece = false) pieces ->
  split_on "&" (join "&" pieces) = pieces.
Proof.
  unfold join. intros Hne Hfree.
  induction Hfree as [| x l Hx Hl IH]; [contradiction Hne; reflexivity |].
  destruct l as [| y l].
  - simpl. apply split_on_free. exact Hx.
  - change (String.concat "&" (x :: y :: l))
      with (x ++ String "&" (String.concat "&" (y :: l))).
    rewrite (split_on_app _ _ _ Hx), IH by discriminate. reflexivity.
Qed.

Lemma queryPairs_amp_free (params : object) :
  amp_free params ->
  Forall (fun piece => has_char "&" piece = false) (queryPairs params).
Proof.
  unfold amp_free, queryPairs, Object_entries.
  induction 1 as [| kv rest [Hk Hv] _ IH]; simpl; [constructor |].
  destruct (is_undefined (snd kv)); [exact IH |].
  simpl. constructor; [| exact IH].
  rewrite has_char_app, Hk. simpl. exact Hv.
Qed.

Lemma queryPairs_not_empty_string (params : object) :
  ~ In EmptyString (queryPairs params).
Proof.
  unfold queryPairs. intro H. apply in_map_iff in H.
  destruct H as (kv & E & _). destruct (fst kv); discriminate.
Qed.

Lemma join_nil_iff (pieces : list string) :
  ~ In EmptyString pieces -> join "&" pieces = EmptyString -> pieces = [].
Proof.
  unfold join. intros Hin H. destruct pieces as [| x l]; [reflexivity |].
  exfalso. destruct x as [| c x]; [apply Hin; left; reflexivity |].
  destruct l; discriminate.
Qed.

(** X18.  When no key and no printed value holds an [&], the query string
    determines its pairs: two parameter objects with the same query
    string have the same list of [key=value] pairs. *)
Theorem paramsObjToQueryString_injective (p1 p2 : object) :
  amp_free p1 -> amp_free p2 ->
  paramsObjToQueryString p1 = paramsObjToQueryString p2 ->
  queryPairs p1 = queryPairs p2.
Proof.
  unfold paramsObjToQueryString. intros F1 F2 H.
  apply queryPairs_amp_free in F1. apply queryPairs_amp_free in F2.
  pose proof (queryPairs_not_empty_string p1) as N1.
  pose proof (queryPairs_not_empty_string p2) as N2.
  destruct (queryPairs p1) as [| x1 l1] eqn:E1.
  - symmetry. apply join_nil_iff; [exact N2 | symmetry; exact H].
  - destruct (queryPairs p2) as [| x2 l2] eqn:E2.
    + apply join_nil_iff; [exact N1 | exact H].
    + rewrite <- (split_on_join (x1 :: l1)) by (discriminate || exact F1).
      rewrite <- (split_on_join (x2 :: l2)) by (discriminate || exact F2).
      rewrite H. reflexivity.
Qed.

Lemma join_app (a b : list string) :
  a <> [] -> b <> [] ->
  join "&" (a ++ b)%list = join "&" a ++ "&" ++ join "&" b.
Proof.
  unfold join. intros Ha Hb.
  induction a as [| x a IH]; [contradiction Ha; reflexivity |].
  destruct a as [| y a].
  - destruct b; [contradiction Hb; reflexivity | reflexivity].
  - change (String.concat "&" ((x :: y :: a) ++ b)%list)
      with (x ++ "&" ++ String.concat "&" ((y :: a) ++ b)%list).
    rewrite IH by discriminate.
    change (String.concat "&" (x :: y :: a))
      with (x ++ "&" ++ String.concat "&" (y :: a)).
    rewrite !string_app_assoc. reflexivity.
Qed.

Lemma queryPairs_not_nil (params : object) :
  Exists (fun kv => snd kv <> VUndefined) params -> queryPairs params <> [].
Proof.
  induction 1 as [[key v] rest Hv | [key v] rest _ IH].
  - simpl in Hv. rewrite (queryPairs_defined _ _ _ Hv). discriminate.
  - destruct v; try (rewrite queryPairs_defined by discriminate; discriminate).
    rewrite queryPairs_undefined. exact IH.
Qed.

(** X19.  The query string of two objects put end to end: when each holds
    a defined value it is the two query strings joined by [&]; when every
    value of one of them is [undefined] it is the query string of the
    other, with no [&] added. *)
Theorem paramsObjToQueryString_app (a b : object) :
  (Exists (fun kv => snd kv <> VUndefined) a ->
   Exists (fun kv => snd kv <> VUndefined) b ->
   paramsObjToQueryString (a ++ b)%list
   = paramsObjToQueryString a ++ "&" ++ paramsObjToQueryString b)
  /\ (Forall (fun kv => snd kv = VUndefined) a ->
      paramsObjToQueryString (a ++ b)%list = paramsObjToQueryString b)
  /\ (Forall (fun kv => snd kv = VUndefined) b ->
      paramsObjToQueryString (a ++ b)%list = paramsObjToQueryString a).
Proof.
  unfold paramsObjToQueryString. rewrite queryPairs_app.
  split; [| split].
  - intros Ha Hb. apply join_app; apply queryPairs_not_nil; assumption.
  - intro Ha. rewrite (queryPairs_all_undefined _ Ha). reflexivity.
  - intro Hb. rewrite (queryPairs_all_undefined _ Hb), app_nil_r.
    reflexivity.
Qed.

(** ** The statements above, run *)

Lemma unanswered_call_rejects_witness :
  run Json.json Json.json_parse (fun _ => None) K_json
    (CallKeywords (VStr "example.com")) quiet
  = (Throw TransportFailure,
     World [] ["https://api.builtwith.com/kw2/api.json?KEY=K&LOOKUP=example.com"]).
Proof.
  exact (unanswered_call_rejects Json.json Json.json_parse (fun _ => None)
           K_json (CallKeywords (VStr "example.com")) quiet eq_refl).
Defined.

Lemma xml_call_resolves_to_text_witness :
  run Json.json Json.json_parse (always "[1, 2]") K_xml
    (CallRelationships (VStr "example.com")) quiet
  = (Return (Text "[1, 2]"),
     World [] ["https://api.builtwith.com/rv1/api.xml?KEY=K&LOOKUP=example.com"]).
Proof.
  exact (xml_call_resolves_to_text Json.json Json.json_parse (always "[1, 2]")
           K_xml (CallRelationships (VStr "example.com")) "[1, 2]" quiet
           eq_refl eq_refl).
Defined.

Lemma single_lookup_parses_or_rejects_witness :
  run Json.json Json.json_parse (always "plain text") K_txt
    (CallKeywords (VStr "example.com")) quiet
  = (Throw InvalidJSON,
     World [] ["https://api.builtwith.com/kw2/api.txt?KEY=K&LOOKUP=example.com"]).
Proof.
  exact (single_lookup_parses_or_rejects Json.json Json.json_parse
           (always "plain text") K_txt (CallKeywords (VStr "example.com"))
           "plain text" quiet eq_refl (or_intror eq_refl) eq_refl).
Defined.

Lemma single_lookup_keeps_console_witness :
  console (snd (run Json.json Json.json_parse (always "plain text") K_json
                  (CallFree (VStr "example.com")) quiet))
  = [].
Proof.
  exact (single_lookup_keeps_console Json.json Json.json_parse
           (always "plain text") K_json (CallFree (VStr "example.com")) quiet
           eq_refl).
Defined.

Lemma report_call_warns_only_on_fallback_witness :
  let r := run Json.json Json.json_parse (always "Error: invalid key") K_json
             (CallTrends (VStr "jQuery") VUndefined) quiet in
  console (snd r) = console quiet
  \/ (console (snd r) = (console quiet ++ [FALLBACK_WARNING])%list
      /\ exists b,
           always "Error: invalid key"
             (call_url K_json (CallTrends (VStr "jQuery") VUndefined)) = Some b
           /\ Json.json_parse b = None
           /\ fst r = Return (Text b)).
Proof.
  exact (report_call_warns_only_on_fallback Json.json Json.json_parse
           (always "Error: invalid key") K_json
           (CallTrends (VStr "jQuery") VUndefined) quiet eq_refl).
Defined.

Lemma lists_txt_resolves_to_text_witness :
  lists Json.json Json.json_parse (always "[1, 2]") K_txt
    (VStr "Shopify") VUndefined quiet
  = (Return (Text "[1, 2]"),
     World [] ["https://api.builtwith.com/lists5/api.txt?KEY=K&TECH=Shopify&META=false"]).
Proof.
  exact (lists_txt_resolves_to_text Json.json Json.json_parse (always "[1, 2]")
           K_txt (VStr "Shopify") VUndefined "[1, 2]" quiet eq_refl eq_refl).
Defined.

Lemma report_call_json_parses_or_falls_back_witness :
  run Json.json Json.json_parse (always "[1, 2]") K_json
    (CallTrends (VStr "jQuery") VUndefined) quiet
  = (Return (Parsed (Json.JArray [Json.JNumber "1"; Json.JNumber "2"])),
     World [] ["https://api.builtwith.com/trends/v6/api.json?KEY=K&TECH=jQuery"]).
Proof.
  exact (report_call_json_parses_or_falls_back Json.json Json.json_parse
           (always "[1, 2]") K_json (CallTrends (VStr "jQuery") VUndefined)
           "[1, 2]" quiet eq_refl eq_refl eq_refl).
Defined.

Lemma lists_options_forwarded_witness :
  lists_url K_json (VStr "Shopify")
    (VObj [ ("includeMetaData", VBool true);
            ("offset", VNum 50);
            ("since", VStr "2020-01-01") ])
  = "https://api.builtwith.com/lists5/api.json?KEY=K&TECH=Shopify&META=true&OFFSET=50&SINCE=2020-01-01".
Proof.
  apply (lists_options_forwarded K_json "Shopify" true (VNum 50)
           (VStr "2020-01-01")); first [reflexivity | discriminate].
Defined.

Lemma trends_date_forwarded_witness :
  trends_url K_json (VStr "jQuery") (VObj [("date", VStr "2016-01-20")])
  = "https://api.builtwith.com/trends/v6/api.json?KEY=K&TECH=jQuery&DATE=2016-01-20".
Proof.
  apply (trends_date_forwarded K_json "jQuery" (VStr "2016-01-20")).
  - reflexivity.
  - discriminate.
Defined.

Lemma companyToUrl_tld_forwarded_witness :
  companyToUrl_url K_json (VStr "Acme") (VObj [("tld", VStr "com")])
  = "https://ctu.builtwith.com/ctu1/api.json?KEY=K&COMPANY=Acme&TLD=com".
Proof.
  apply (companyToUrl_tld_forwarded K_json "Acme" (VStr "com")).
  - reflexivity.
  - discriminate.
Defined.

Lemma BuiltWith_returns_iff_valid_format_witness :
  exists c w',
    BuiltWith (VStr "K") (VObj [("responseFormat", VStr "json")]) quiet
    = (Return c, w').
Proof.
  exact (proj2 (proj1 (BuiltWith_returns_iff_valid_format (VStr "K")
                         (VObj [("responseFormat", VStr "json")]) quiet))
           (or_intror (or_introl eq_refl))).
Defined.

Lemma exported_client_free_request_witness :
  requests
    (snd (bind (module_exports (VStr "K")
                  (VObj [("responseFormat", VStr "txt")]))
            (fun c => free Json.json Json.json_parse (always "[1, 2]") c
                        (VStr "example.com")) quiet))
  = ["https://api.builtwith.com/free1/api.txt?KEY=K&LOOKUP=example.com"].
Proof.
  apply (exported_client_free_request Json.json Json.json_parse
           (always "[1, 2]") "K" "txt" "example.com").
  simpl. right. right. left. reflexivity.
Defined.

Lemma paramsObjToQueryString_injective_witness :
  queryPairs [("TECH", VStr "php"); ("DATE", VUndefined)]
  = queryPairs [("OFFSET", VUndefined); ("TECH", VStr "php")].
Proof.
  apply paramsObjToQueryString_injective.
  - repeat constructor.
  - repeat constructor.
  - reflexivity.
Defined.

Lemma paramsObjToQueryString_app_witness :
  paramsObjToQueryString
    ([("TECH", VStr "php"); ("DATE", VUndefined)] ++ [("META", VBool false)])%list
  = "TECH=php&META=false".
Proof.
  refine (eq_trans
    (proj1 (paramsObjToQueryString_app
              [("TECH", VStr "php"); ("DATE", VUndefined)]
              [("META", VBool false)]) _ _) _).
  - left. discriminate.
  - left. discriminate.
  - reflexivity.
Defined.
